(** * Stepper motor controller (ATmega, avr-gcc): UART command interpreter
      and foreground stepping engine of [main.c].

    The firmware is embedded shallowly.  Machine integers are [Z] with the
    wrap-around of the 8 and 16-bit types written out; the receive buffer is
    a list updated by index, an out-of-range store being reported as a
    fault; the interrupt service routine is a step function on the record of
    the file-scope variables; the foreground loops are run with fuel and
    append to a trace of the writes to PORTC and of the calls of the 10 us
    delay primitive. *)

From stdpp Require Import base list strings.
From Stdlib Require Import ZArith Lia Ascii.

Open Scope Z_scope.

(** ** Machine integers of the target

    On AVR [int] is 16 bits wide, so [uint16_t] is [unsigned int] and
    [int16_t] is [int].  Conversions to an unsigned type reduce modulo
    2^width; conversions to [int16_t] and 16-bit signed arithmetic wrap in
    two's complement, as avr-gcc implements them. *)
Module AVR.

Definition to_uint8 (z : Z) : Z := z mod 256.
Definition to_uint16 (z : Z) : Z := z mod 65536.
Definition to_int16 (z : Z) : Z := (z + 32768) mod 65536 - 32768.

Definition INT16_MAX : Z := 32767.
Definition INT16_MIN : Z := - INT16_MAX - 1.

Definition is_uint16 (z : Z) : Prop := 0 <= z < 65536.
Definition is_int16 (z : Z) : Prop := -32768 <= z <= 32767.

End AVR.
Import AVR.

(** ** The C library's [atoi], as avr-libc implements it

    [atoi] is not part of the repository; this is the library routine the
    interrupt handler calls: leading white space is skipped, one optional
    sign is read, then decimal digits are accumulated in a 16-bit register
    (multiply by ten, add the digit, no overflow detection) until the first
    byte that is not a digit; the result is negated after a minus sign.
    A string without digits gives 0. *)

Definition code (c : ascii) : Z := Z.of_N (N_of_ascii c).

Definition NUL : ascii := ascii_of_N 0.
Definition newline : ascii := ascii_of_N 10.

Definition isspace (c : ascii) : bool :=
  (code c =? 32) || ((9 <=? code c) && (code c <=? 13)).

Definition isdigit (c : ascii) : bool :=
  (48 <=? code c) && (code c <=? 57).

Fixpoint skip_space (s : list ascii) : list ascii :=
  match s with
  | c :: s' => if isspace c then skip_space s' else s
  | [] => []
  end.

Fixpoint atoi_digits (acc : Z) (s : list ascii) : Z :=
  match s with
  | c :: s' =>
      if isdigit c then atoi_digits (to_uint16 (acc * 10 + (code c - 48))) s'
      else acc
  | [] => acc
  end.

Definition atoi (s : list ascii) : Z :=
  match skip_space s with
  | c :: s' =>
      if code c =? 45 then to_int16 (- atoi_digits 0 s')
      else if code c =? 43 then to_int16 (atoi_digits 0 s')
      else to_int16 (atoi_digits 0 (c :: s'))
  | [] => 0
  end.

(** A string holds a number for [atoi] when, after the white space and the
    optional sign, it continues with a digit. *)
Definition has_number (s : list ascii) : bool :=
  match skip_space s with
  | c :: s' =>
      if (code c =? 45) || (code c =? 43)
      then match s' with d :: _ => isdigit d | [] => false end
      else isdigit c
  | [] => false
  end.

(** ** The interrupt service routine [ISR(USART_RXC_vect)] *)

(** File-scope variables of [main.c]. *)
Record state : Type := mkState {
  m_received : list ascii;      (* static char m_received[7] *)
  m_rx_index : Z;               (* static uint8_t m_rx_index *)
  m_stepper_delay : Z;          (* static volatile uint16_t *)
  m_stepper_position : Z        (* static volatile uint16_t *)
}.

Definition RX_CAPACITY : Z := 7.

(** The two array stores of the handler: the terminator written when a
    newline arrives, and the append of any other byte. *)
Inductive store_site : Type := Terminator | Append.

Inductive fault : Type :=
  | OutOfBounds (site : store_site) (index : Z).

Inductive result (A : Type) : Type :=
  | Ok (a : A)
  | Fault (f : fault).
Arguments Ok {A} a.
Arguments Fault {A} f.

#[global] Instance result_bind : MBind result := fun A B k r =>
  match r with
  | Ok a => k a
  | Fault f => Fault f
  end.

(** [m_received[i] = c]: defined inside the array only. *)
Definition store (site : store_site) (buf : list ascii) (i : Z) (c : ascii)
  : result (list ascii) :=
  if (0 <=? i) && (i <? RX_CAPACITY)
  then Ok (<[Z.to_nat i := c]> buf)
  else Fault (OutOfBounds site i).

Definition char_at (buf : list ascii) (i : nat) : ascii := nth i buf NUL.

Definition set_delay (d : Z) (st : state) : state :=
  mkState (m_received st) (m_rx_index st) d (m_stepper_position st).

Definition set_position (p : Z) (st : state) : state :=
  mkState (m_received st) (m_rx_index st) (m_stepper_delay st) p.

Definition set_buffer (buf : list ascii) (i : Z) (st : state) : state :=
  mkState buf i (m_stepper_delay st) (m_stepper_position st).

(** The comparison [m_stepper_delay == INT16_MIN] is between an
    [unsigned int] and an [int]: the [int] operand is converted to
    [unsigned int] first. *)
Definition is_sentinel (d : Z) : bool :=
  (d =? to_uint16 INT16_MAX) || (d =? to_uint16 INT16_MIN).

(** The classification of the terminated line, the [if ('s' == ...)] /
    [else if ('p' == ...)] of the handler. The delay is assigned first and
    then, when it compares equal to a bound, assigned 0. *)
Definition interpret (st : state) : state :=
  let first := code (char_at (m_received st) 0) in
  if first =? 115 (* 's' *) then
    let st1 := set_delay (to_uint16 (atoi (drop 1 (m_received st)))) st in
    if is_sentinel (m_stepper_delay st1) then set_delay 0 st1 else st1
  else if first =? 112 (* 'p' *) then
    set_position (to_uint16 (atoi (drop 1 (m_received st)))) st
  else st.

Definition USART_RXC_vect (byte : ascii) (st : state) : result state :=
  if code byte =? 10 (* '\n' *) then
    buf ← store Terminator (m_received st) (m_rx_index st) NUL;
    let st1 := interpret (set_buffer buf (m_rx_index st) st) in
    Ok (set_buffer (m_received st1) 0 st1)
  else
    buf ← store Append (m_received st) (m_rx_index st) byte;
    Ok (set_buffer buf (to_uint8 (m_rx_index st + 1)) st).

(** The handler run once per received byte, in arrival order. *)
Fixpoint receive (bytes : list ascii) (st : state) : result state :=
  match bytes with
  | [] => Ok st
  | b :: bytes' => st' ← USART_RXC_vect b st; receive bytes' st'
  end.

(** A completed line: its bytes, then the newline. *)
Definition receive_line (line : list ascii) (st : state) : result state :=
  receive (line ++ [newline]) st.

(** Zero-initialised statics at reset. *)
Definition reset_state : state := mkState (replicate 7 NUL) 0 0 0.

Definition chars (s : String.string) : list ascii :=
  String.list_ascii_of_string s.
Arguments chars s%_string.

(** ** The foreground stepping engine *)

(** What the engine does to the outside: a write of the coil pattern to
    PORTC, or one call of [_delay_us(10)]. *)
Inductive event : Type :=
  | Write_PORTC (v : Z)
  | Delay_10us.

Definition trace : Type := list event.

(** A C loop whose test may have a side effect (as [us--] has): the test
    yields its truth value and the state it leaves; [None] when the fuel is
    used up before the test fails. *)
Fixpoint while {St : Type} (fuel : nat) (test : St -> bool * St)
    (body : St -> option St) (s : St) : option St :=
  match fuel with
  | O => None
  | S fuel' =>
      let (b, s1) := test s in
      if b then s2 ← body s1; while fuel' test body s2
      else Some s1
  end.

(** [while (us--) { _delay_us(10); }] with [us : uint16_t]. *)
Definition my_delay_us_loop (fuel : nat) (us : Z) (tr : trace)
  : option (Z * trace) :=
  while fuel
    (fun s : Z * trace => (negb (s.1 =? 0), (to_uint16 (s.1 - 1), s.2)))
    (fun s : Z * trace => Some (s.1, s.2 ++ [Delay_10us]))
    (us, tr).

Definition my_delay_us (fuel : nat) (us : Z) (tr : trace) : option trace :=
  snd <$> my_delay_us_loop fuel us tr.

Definition SEQ_SIZE : Z := 8.

(** [for (uint8_t i = 0; i < SEQ_SIZE; i++) { PORTC = seq[i]; my_delay_us(delay); }]
    Both sequences have [SEQ_SIZE] entries, so [seq[i]] is always inside. *)
Definition coil_loop (fuel : nat) (seq : list Z) (delay : Z) (i : Z) (tr : trace)
  : option (Z * trace) :=
  while fuel
    (fun s : Z * trace => (s.1 <? SEQ_SIZE, s))
    (fun s : Z * trace =>
       tr' ← my_delay_us fuel delay (s.2 ++ [Write_PORTC (nth (Z.to_nat s.1) seq 0)]);
       Some (to_uint8 (s.1 + 1), tr'))
    (i, tr).

(** [stepper_rotate]: [count] runs from 0 while [count < dif_position]. *)
Definition rotate_loop (fuel : nat) (seq : list Z) (delay dif_position : Z)
    (count : Z) (tr : trace) : option (Z * trace) :=
  while fuel
    (fun s : Z * trace => (s.1 <? dif_position, s))
    (fun s : Z * trace =>
       r ← coil_loop fuel seq delay 0 s.2;
       Some (to_uint16 (s.1 + 1), r.2))
    (count, tr).

Definition stepper_rotate (fuel : nat) (seq : list Z) (delay dif_position : Z)
    (tr : trace) : option trace :=
  snd <$> rotate_loop fuel seq delay dif_position 0 tr.

Definition seq_cw : list Z := [1; 3; 2; 6; 4; 12; 8; 9].
Definition seq_ccw : list Z := [9; 8; 12; 4; 6; 2; 3; 1].

(** [int16_t position = m_stepper_position;] the stored [uint16_t] read as
    a signed value. *)
Definition snapshot_position (st : state) : Z :=
  to_int16 (m_stepper_position st).

(** One pass of the body of [while (1)] in [main]: the copies taken between
    [cli()] and [sei()], the rotation, the update of [previous_position].
    The result is the new [previous_position] and the extended trace. *)
Definition main_iteration (fuel : nat) (st : state) (previous_position : Z)
    (tr : trace) : option (Z * trace) :=
  let delay := m_stepper_delay st in
  let position := snapshot_position st in
  let dif_position := to_int16 (position - previous_position) in
  tr' ← (if dif_position >? 0 then
           stepper_rotate fuel seq_cw delay (to_uint16 dif_position) tr
         else if dif_position <? 0 then
           let dif_position := to_int16 (- dif_position) in
           stepper_rotate fuel seq_ccw delay (to_uint16 dif_position) tr
         else Some tr);
  Some (position, tr').

(** The position difference [main] computes, as a function of the two
    positions. *)
Definition position_delta (position previous_position : Z) : Z :=
  to_int16 (position - previous_position).

(** ** Traces of the motion primitive *)

Definition hold (delay : Z) : trace := replicate (Z.to_nat delay) Delay_10us.

Definition coil_step (delay : Z) (v : Z) : trace := Write_PORTC v :: hold delay.

Definition cycle (seq : list Z) (delay : Z) : trace :=
  flat_map (coil_step delay) seq.

Definition cycles (seq : list Z) (delay : Z) (n : Z) : trace :=
  List.concat (replicate (Z.to_nat n) (cycle seq delay)).

(** The motion that belongs to a signed position difference: clockwise
    cycles for a positive one, counter-clockwise cycles for a negative one,
    nothing for zero. *)
Definition motion (delay : Z) (dif_position : Z) : trace :=
  if dif_position >? 0 then cycles seq_cw delay dif_position
  else if dif_position <? 0 then cycles seq_ccw delay (- dif_position)
  else [].

(** The coil patterns of a trace, in order. *)
Fixpoint coil_writes (tr : trace) : list Z :=
  match tr with
  | Write_PORTC v :: tr' => v :: coil_writes tr'
  | Delay_10us :: tr' => coil_writes tr'
  | [] => []
  end.

(** The delay calls at the head of a trace. *)
Fixpoint leading_delays (tr : trace) : Z :=
  match tr with
  | Delay_10us :: tr' => 1 + leading_delays tr'
  | _ => 0
  end.

(** The trace cut after each write: one pair per coil write, the pattern
    written and the number of delay calls that follow it before the next
    write (or the end). *)
Fixpoint holds (tr : trace) : list (Z * Z) :=
  match tr with
  | Write_PORTC v :: tr' => (v, leading_delays tr') :: holds tr'
  | Delay_10us :: tr' => holds tr'
  | [] => []
  end.

(** No loop of the engine runs more than 65535 times. *)
Definition enough_fuel (fuel : nat) : Prop := 65536 <= Z.of_nat fuel.

(** ** Command lines as the sender writes them *)

Definition digit_char (d : Z) : ascii := ascii_of_N (Z.to_N (48 + d)).

(** Decimal digits of a natural number, most significant first. *)
Fixpoint decimal_digits (fuel : nat) (n : Z) : list Z :=
  match fuel with
  | O => []
  | S fuel' =>
      if n <? 10 then [n]
      else decimal_digits fuel' (n / 10) ++ [n mod 10]
  end.

Definition is_digit_value (d : Z) : Prop := 0 <= d <= 9.

(** Where the digit loop of [atoi] stops: at the end, or at a byte that is
    not a digit. *)
Definition stops (rest : list ascii) : Prop :=
  match rest with
  | c :: _ => isdigit c = false
  | [] => True
  end.

(** The 16-bit accumulation of the digit loop. *)
Definition accumulate16 (acc : Z) (ds : list Z) : Z :=
  fold_left (fun a d => to_uint16 (a * 10 + d)) ds acc.

Definition digits_value (ds : list Z) : Z :=
  fold_left (fun a d => a * 10 + d) ds 0.

Definition decimal_nat (n : Z) : list ascii :=
  map digit_char (decimal_digits (S (Z.to_nat n)) n).

(** The decimal text of an integer: a minus sign for a negative one, then
    the digits without leading zeros. *)
Definition decimal (n : Z) : list ascii :=
  if n <? 0 then ascii_of_N 45 :: decimal_nat (- n) else decimal_nat n.

Definition letter_s : ascii := ascii_of_N 115.
Definition letter_p : ascii := ascii_of_N 112.

(** A line can be received when it holds no newline; it fits the buffer
    when its bytes and the terminator do. *)
Definition is_line (line : list ascii) : Prop :=
  Forall (fun c => code c <> 10) line.

Definition fits (line : list ascii) : Prop :=
  Z.of_nat (length line) < RX_CAPACITY.

(** A command line of the serial protocol: newline-terminated, and short
    enough for the line buffer (at most 6 bytes before the newline). *)
Definition command_line (line : list ascii) : Prop :=
  is_line line /\ fits line.

(** The handler is at the start of a line: cursor at 0, as after reset and
    after every newline. *)
Definition line_start (st : state) : Prop :=
  length (m_received st) = 7%nat /\ m_rx_index st = 0.

(** What the handler maintains: a 7-byte buffer, a cursor that is a
    [uint8_t], a delay and a position that are [uint16_t]. *)
Definition well_formed (st : state) : Prop :=
  length (m_received st) = 7%nat
  /\ 0 <= m_rx_index st < 256
  /\ is_uint16 (m_stepper_delay st)
  /\ is_uint16 (m_stepper_position st).

(** Two states agree when they have the same cursor, delay and position and
    hold the same bytes before the cursor; what lies at and behind the
    cursor is not compared. *)
Definition agree (st1 st2 : state) : Prop :=
  m_rx_index st1 = m_rx_index st2
  /\ m_stepper_delay st1 = m_stepper_delay st2
  /\ m_stepper_position st1 = m_stepper_position st2
  /\ length (m_received st1) = 7%nat
  /\ length (m_received st2) = 7%nat
  /\ take (Z.to_nat (m_rx_index st1)) (m_received st1)
     = take (Z.to_nat (m_rx_index st1)) (m_received st2).

(** Two runs of the handler have the same outcome: the same fault, or
    states that agree. *)
Definition same_outcome (r1 r2 : result state) : Prop :=
  match r1, r2 with
  | Ok st1, Ok st2 => agree st1 st2
  | Fault f1, Fault f2 => f1 = f2
  | _, _ => False
  end.

(** ** States used as examples *)

(** The state after [s5] and [p20]. *)
Definition state_s5_p20 : state :=
  mkState (chars "p20" ++ replicate 4 NUL) 0 5 20.

(** The state after [p32767], reached with the previous position at
    INT16_MIN (after [p32768] and one iteration). *)
Definition state_p32767 : state :=
  mkState (chars "p32767" ++ [NUL]) 0 0 32767.

(** ** The rest of [main.c]: serial set-up, the loop of [main] *)

(** What [main.c] takes from the build and from [avr/io.h]: the clock
    frequency [F_CPU] and the bit numbers of the USART control registers. *)
Record avr_io : Type := mkIo {
  F_CPU : Z;
  RXCIE : Z; RXEN : Z; TXEN : Z;
  URSEL : Z; UCSZ0 : Z; UCSZ1 : Z
}.

(** The four 8-bit registers [init_USART] writes. *)
Record usart_registers : Type := mkUsart {
  UBRRH : Z; UBRRL : Z; UCSRB : Z; UCSRC : Z
}.

Definition to_uint32 (z : Z) : Z := z mod 4294967296.

Definition BAUD_RATE : Z := 4800.

(** [((F_CPU / (BAUD_RATE * 16UL)) - 1)], computed in [unsigned long]. *)
Definition BAUD_PRESCALE (io : avr_io) : Z :=
  to_uint32 (to_uint32 (F_CPU io) / to_uint32 (BAUD_RATE * 16) - 1).

(** [1 << n]. *)
Definition bit (n : Z) : Z := Z.shiftl 1 n.

Definition init_USART (io : avr_io) : usart_registers :=
  mkUsart
    (to_uint8 (Z.shiftr (BAUD_PRESCALE io) 8))
    (to_uint8 (BAUD_PRESCALE io))
    (to_uint8 (Z.lor (Z.lor (bit (RXCIE io)) (bit (RXEN io))) (bit (TXEN io))))
    (to_uint8 (Z.lor (Z.lor (bit (URSEL io)) (bit (UCSZ0 io))) (bit (UCSZ1 io)))).

(** The divisor the register pair UBRRH:UBRRL holds. *)
Definition UBRR (regs : usart_registers) : Z := UBRRH regs * 256 + UBRRL regs.

(** [DDRC = 0x0F;] in [main]: the four low pins of port C are outputs. *)
Definition DDRC : Z := 15.

(** The loop of [main] over several passes: each pass sees the shared
    variables as they are when it takes its copies. *)
Fixpoint main_iterations (fuel : nat) (snapshots : list state)
    (previous_position : Z) (tr : trace) : option (Z * trace) :=
  match snapshots with
  | [] => Some (previous_position, tr)
  | st :: snapshots' =>
      r ← main_iteration fuel st previous_position tr;
      main_iterations fuel snapshots' r.1 r.2
  end.

(** The position differences the passes act on, one per pass. *)
Fixpoint deltas (positions : list Z) (previous_position : Z) : list Z :=
  match positions with
  | [] => []
  | p :: positions' => position_delta p previous_position :: deltas positions' p
  end.

Definition sum_list_Z (l : list Z) : Z := fold_right Z.add 0 l.

(** The last of a run of positions, or the starting one. *)
Definition final_position (positions : list Z) (previous_position : Z) : Z :=
  fold_left (fun _ p => p) positions previous_position.

(** Every step of a run of positions is representable in 16 signed bits. *)
Fixpoint steps_in_range (positions : list Z) (previous_position : Z) : Prop :=
  match positions with
  | [] => True
  | p :: positions' =>
      is_int16 (p - previous_position) /\ steps_in_range positions' p
  end.

(** The motions of several passes, one after the other. *)
Fixpoint motions (snapshots : list state) (previous_position : Z) : trace :=
  match snapshots with
  | [] => []
  | st :: snapshots' =>
      motion (m_stepper_delay st)
        (position_delta (snapshot_position st) previous_position)
      ++ motions snapshots' (snapshot_position st)
  end.

(** [main]: the set-up, then the loop from [previous_position = 0]. *)
Definition main (io : avr_io) (fuel : nat) (snapshots : list state)
  : usart_registers * Z * option (Z * trace) :=
  (init_USART io, DDRC, main_iterations fuel snapshots 0 []).

(** The number of calls of the delay primitive in a trace. *)
Fixpoint delay_calls (tr : trace) : Z :=
  match tr with
  | Delay_10us :: tr' => 1 + delay_calls tr'
  | Write_PORTC _ :: tr' => delay_calls tr'
  | [] => 0
  end.

(** ** Streams of command lines *)

(** The bytes of several lines, each followed by its newline. *)
Definition stream (lines : list (list ascii)) : list ascii :=
  flat_map (fun line => line ++ [newline]) lines.

(** What one completed line does to the pair (delay, position). *)
Definition line_effect (line : list ascii) (dp : Z * Z) : Z * Z :=
  match line with
  | c :: body =>
      if code c =? 115 then
        (let d := to_uint16 (atoi body) in if is_sentinel d then 0 else d, dp.2)
      else if code c =? 112 then (dp.1, to_uint16 (atoi body))
      else dp
  | [] => dp
  end.

(** What holds of the shared variables whenever the handler has run without
    leaving the buffer: the state is well formed, the cursor is at most 7,
    and the delay is neither of the two rejected values. *)
Definition settled (st : state) : Prop :=
  well_formed st
  /\ m_rx_index st <= 7
  /\ m_stepper_delay st <> 32767
  /\ m_stepper_delay st <> 32768.

(** * Properties *)

Section MachineIntegers.

Lemma to_uint16_range z : is_uint16 (to_uint16 z).
Proof. unfold is_uint16, to_uint16. apply Z.mod_pos_bound. lia. Qed.

Lemma to_int16_range z : is_int16 (to_int16 z).
Proof.
  unfold is_int16, to_int16.
  pose proof (Z.mod_pos_bound (z + 32768) 65536). lia.
Qed.

Lemma to_uint16_id z : is_uint16 z -> to_uint16 z = z.
Proof. unfold is_uint16, to_uint16. intros H. apply Z.mod_small. lia. Qed.

Lemma to_int16_id z : is_int16 z -> to_int16 z = z.
Proof.
  unfold is_int16, to_int16. intros H.
  rewrite Z.mod_small by lia. lia.
Qed.

(** The two readings of one 16-bit pattern. *)
Lemma to_int16_to_uint16 z : to_int16 (to_uint16 z) = to_int16 z.
Proof.
  unfold to_int16, to_uint16.
  rewrite Zplus_mod_idemp_l. reflexivity.
Qed.

Lemma to_uint16_to_int16 z : to_uint16 (to_int16 z) = to_uint16 z.
Proof.
  unfold to_int16, to_uint16.
  rewrite Zminus_mod_idemp_l.
  replace (z + 32768 - 32768) with z by lia. reflexivity.
Qed.

Lemma to_uint16_neg z : -65536 <= z < 0 -> to_uint16 z = z + 65536.
Proof.
  unfold to_uint16. intros H.
  replace z with (z + 65536 + (-1) * 65536) at 1 by lia.
  rewrite Z.mod_add by lia. apply Z.mod_small. lia.
Qed.

Lemma to_int16_congr a b : to_uint16 a = to_uint16 b -> to_int16 a = to_int16 b.
Proof.
  intros H. rewrite <- (to_int16_to_uint16 a), <- (to_int16_to_uint16 b).
  now rewrite H.
Qed.

End MachineIntegers.

(** ** The receive buffer while a line is collected *)

Section Receiver.

Implicit Types (line bytes buf : list ascii) (st : state).

Lemma store_inside site buf i c :
  0 <= i < RX_CAPACITY -> store site buf i c = Ok (<[Z.to_nat i := c]> buf).
Proof.
  intros H. unfold store.
  destruct (Z.leb_spec 0 i); [| lia].
  destruct (Z.ltb_spec i RX_CAPACITY); [reflexivity | lia].
Qed.

Lemma store_outside site buf i c :
  RX_CAPACITY <= i -> store site buf i c = Fault (OutOfBounds site i).
Proof.
  intros H. unfold store.
  destruct (Z.ltb_spec i RX_CAPACITY); [lia |].
  now rewrite andb_false_r.
Qed.

Lemma receive_app bytes1 bytes2 st :
  receive (bytes1 ++ bytes2) st = receive bytes1 st ≫= receive bytes2.
Proof.
  revert st. induction bytes1 as [| b bytes1 IH]; intros st; simpl.
  - reflexivity.
  - destruct (USART_RXC_vect b st) as [st' | f]; simpl.
    + apply IH.
    + reflexivity.
Qed.

(** A byte other than the newline, with the cursor inside the buffer, is
    stored at the cursor and the cursor moves on by one. *)
Lemma append_inside b st :
  code b <> 10 -> 0 <= m_rx_index st < RX_CAPACITY ->
  USART_RXC_vect b st =
    Ok (set_buffer (<[Z.to_nat (m_rx_index st) := b]> (m_received st))
          (m_rx_index st + 1) st).
Proof.
  intros Hb Hi. unfold USART_RXC_vect.
  destruct (Z.eqb_spec (code b) 10); [contradiction |].
  rewrite store_inside by assumption. simpl.
  unfold RX_CAPACITY in Hi.
  unfold to_uint8. rewrite Z.mod_small by lia. reflexivity.
Qed.

(** With the cursor at position [k], the bytes of a line that still fits are
    laid down from [k] on. *)
Lemma receive_bytes line : forall st (k : nat),
  is_line line ->
  m_rx_index st = Z.of_nat k ->
  length (m_received st) = 7%nat ->
  (k + length line <= 7)%nat ->
  receive line st =
    Ok (set_buffer
          (take k (m_received st) ++ line ++ drop (k + length line) (m_received st))
          (Z.of_nat (k + length line)) st).
Proof.
  induction line as [| b line IH]; intros st k Hline Hk Hlen Hfit; simpl.
  - rewrite Nat.add_0_r, take_drop, <- Hk. now destruct st.
  - simpl in Hfit. inversion Hline as [| ? ? Hb Hline']; subst.
    rewrite append_inside by (unfold RX_CAPACITY; lia). simpl.
    rewrite (IH _ (S k)); simpl.
    + f_equal. unfold set_buffer; simpl.
      rewrite Hk, Nat2Z.id.
      rewrite (take_S_r _ k b) by (apply list_lookup_insert_eq; lia).
      rewrite take_insert_ge by lia.
      rewrite drop_insert_lt by lia.
      rewrite <- app_assoc. simpl.
      replace (k + S (length line))%nat with (S (k + length line)) by lia.
      reflexivity.
    + assumption.
    + lia.
    + rewrite length_insert. assumption.
    + lia.
Qed.

(** A whole line that fits, followed by its newline: the buffer holds the
    line and the terminator, the command has been interpreted, the cursor is
    back at 0. *)
Lemma receive_line_fits line st :
  is_line line -> fits line -> line_start st ->
  receive_line line st =
    Ok (let buf := line ++ NUL :: drop (S (length line)) (m_received st) in
        let st1 := interpret (set_buffer buf (Z.of_nat (length line)) st) in
        set_buffer (m_received st1) 0 st1).
Proof.
  intros Hline Hfit [Hlen Hidx]. unfold fits, RX_CAPACITY in Hfit.
  unfold receive_line. rewrite receive_app.
  rewrite (receive_bytes line st 0) by (simpl; auto; lia).
  simpl. unfold USART_RXC_vect. simpl.
  rewrite store_inside by (unfold RX_CAPACITY; lia). simpl.
  rewrite Nat2Z.id.
  replace (<[length line := NUL]> (line ++ drop (length line) (m_received st)))
    with (line ++ NUL :: drop (S (length line)) (m_received st)).
  - reflexivity.
  - rewrite insert_app_r_alt by lia.
    rewrite Nat.sub_diag.
    destruct (drop (length line) (m_received st)) as [| x rest] eqn:E.
    + apply (f_equal length) in E. rewrite length_drop in E. simpl in E. lia.
    + simpl. f_equal. f_equal.
      replace (S (length line)) with (length line + 1)%nat by lia.
      rewrite <- drop_drop, E. reflexivity.
Qed.

End Receiver.

(** ** [atoi] on the decimal text of an integer *)

Section Decimal.

Lemma code_inj c1 c2 : code c1 = code c2 -> c1 = c2.
Proof.
  unfold code. intros H. apply N2Z.inj in H.
  rewrite <- (ascii_N_embedding c1), <- (ascii_N_embedding c2). now rewrite H.
Qed.

Lemma code_digit_char d : is_digit_value d -> code (digit_char d) = 48 + d.
Proof.
  unfold is_digit_value, code, digit_char. intros H.
  rewrite N_ascii_embedding by lia. lia.
Qed.

Lemma isdigit_digit_char d : is_digit_value d -> isdigit (digit_char d) = true.
Proof.
  intros H. unfold isdigit. rewrite (code_digit_char d H).
  unfold is_digit_value in H.
  apply andb_true_intro. split; apply Z.leb_le; lia.
Qed.

Lemma isdigit_range c : isdigit c = true -> 48 <= code c <= 57.
Proof.
  unfold isdigit. intros H. apply andb_prop in H as [H1 H2].
  apply Z.leb_le in H1, H2. lia.
Qed.

Lemma stops_NUL rest : stops (NUL :: rest).
Proof. reflexivity. Qed.

Lemma atoi_digits_map ds : forall acc rest,
  Forall is_digit_value ds -> stops rest ->
  atoi_digits acc (map digit_char ds ++ rest) = accumulate16 acc ds.
Proof.
  induction ds as [| d ds IH]; intros acc rest Hds Hrest; simpl.
  - destruct rest as [| c rest]; simpl in *; [reflexivity |].
    now rewrite Hrest.
  - inversion Hds as [| ? ? Hd Hds']; subst.
    rewrite (isdigit_digit_char d Hd), (code_digit_char d Hd).
    replace (48 + d - 48) with d by lia.
    now apply IH.
Qed.

Lemma accumulate16_congr ds : forall a b,
  to_uint16 a = to_uint16 b ->
  to_uint16 (accumulate16 a ds) = to_uint16 (fold_left (fun a d => a * 10 + d) ds b).
Proof.
  unfold accumulate16.
  induction ds as [| d ds IH]; intros a b Hab; simpl.
  - assumption.
  - apply IH. unfold to_uint16 in *. rewrite Z.mod_mod by lia.
    rewrite (Z.add_mod (a * 10)), (Z.mul_mod a), Hab by lia.
    rewrite <- Z.mul_mod, <- Z.add_mod by lia. reflexivity.
Qed.

Lemma accumulate16_range ds : forall acc,
  is_uint16 acc -> is_uint16 (accumulate16 acc ds).
Proof.
  unfold accumulate16.
  induction ds as [| d ds IH]; intros acc Hacc; simpl.
  - assumption.
  - apply IH, to_uint16_range.
Qed.

Lemma atoi_digits_value ds rest :
  Forall is_digit_value ds -> stops rest ->
  atoi_digits 0 (map digit_char ds ++ rest) = to_uint16 (digits_value ds).
Proof.
  intros Hds Hrest. rewrite atoi_digits_map by assumption.
  rewrite <- (to_uint16_id (accumulate16 0 ds)).
  - now apply accumulate16_congr.
  - apply accumulate16_range. unfold is_uint16. lia.
Qed.

(** The digits of a natural number are digits, there is at least one, and
    their value is the number. *)
Lemma decimal_digits_spec fuel : forall n,
  0 <= n < Z.of_nat fuel ->
  Forall is_digit_value (decimal_digits fuel n)
  /\ decimal_digits fuel n <> []
  /\ digits_value (decimal_digits fuel n) = n.
Proof.
  unfold digits_value.
  induction fuel as [| fuel IH]; intros n Hn; [lia |]. simpl.
  destruct (Z.ltb_spec n 10) as [Hlt | Hge].
  - split; [| split; [discriminate | simpl; lia]].
    constructor; [unfold is_digit_value; lia | constructor].
  - assert (Hq : 0 <= n / 10 < Z.of_nat fuel).
    { split; [apply Z.div_pos; lia |].
      assert (n / 10 < n) by (apply Z.div_lt; lia). lia. }
    destruct (IH _ Hq) as (Hall & Hne & Hval).
    split; [| split].
    + apply Forall_app. split; [assumption |].
      constructor; [| constructor].
      unfold is_digit_value. pose proof (Z.mod_pos_bound n 10). lia.
    + intros E. apply app_eq_nil in E as [_ E]. discriminate.
    + rewrite fold_left_app. simpl. rewrite Hval.
      pose proof (Z.div_mod n 10). lia.
Qed.

Lemma atoi_starts_digit c s :
  isdigit c = true -> atoi (c :: s) = to_int16 (atoi_digits 0 (c :: s)).
Proof.
  intros H. pose proof (isdigit_range c H) as Hc.
  unfold atoi. simpl skip_space. unfold isspace.
  destruct (Z.eqb_spec (code c) 32); [lia |].
  destruct (Z.leb_spec (code c) 13); [lia |].
  rewrite andb_false_r. simpl.
  destruct (Z.eqb_spec (code c) 45); [lia |].
  destruct (Z.eqb_spec (code c) 43); [lia |].
  reflexivity.
Qed.

Lemma atoi_minus s :
  atoi (ascii_of_N 45 :: s) = to_int16 (- atoi_digits 0 s).
Proof. reflexivity. Qed.

Lemma atoi_decimal_nat n rest :
  0 <= n -> stops rest -> atoi (decimal_nat n ++ rest) = to_int16 n.
Proof.
  intros Hn Hrest. unfold decimal_nat.
  destruct (decimal_digits_spec (S (Z.to_nat n)) n) as (Hall & Hne & Hval);
    [lia |].
  pose proof (atoi_digits_value _ rest Hall Hrest) as Hdigits.
  destruct (decimal_digits (S (Z.to_nat n)) n) as [| d ds] eqn:E;
    [congruence |].
  simpl map in *. simpl app in *.
  rewrite atoi_starts_digit, Hdigits, Hval.
  - apply to_int16_to_uint16.
  - apply isdigit_digit_char. now inversion Hall.
Qed.

Lemma atoi_digits_decimal_nat n rest :
  0 <= n -> stops rest -> atoi_digits 0 (decimal_nat n ++ rest) = to_uint16 n.
Proof.
  intros Hn Hrest. unfold decimal_nat.
  destruct (decimal_digits_spec (S (Z.to_nat n)) n) as (Hall & Hne & Hval);
    [lia |].
  rewrite atoi_digits_value by assumption. now rewrite Hval.
Qed.

(** [atoi] reads the decimal text of any integer back as that integer
    reduced to 16 bits. *)
Lemma atoi_decimal n rest :
  stops rest -> atoi (decimal n ++ rest) = to_int16 n.
Proof.
  intros Hrest. unfold decimal.
  destruct (Z.ltb_spec n 0) as [Hneg | Hpos].
  - simpl app. rewrite atoi_minus.
    rewrite atoi_digits_decimal_nat by (assumption || lia).
    apply to_int16_congr. unfold to_uint16.
    change (- ((- n) mod 65536)) with (0 - (- n) mod 65536).
    rewrite Zminus_mod_idemp_r. f_equal. lia.
  - now apply atoi_decimal_nat.
Qed.

(** The text of an integer holds no newline. *)
Lemma decimal_nat_is_line n : 0 <= n -> is_line (decimal_nat n).
Proof.
  intros Hn. unfold decimal_nat, is_line.
  destruct (decimal_digits_spec (S (Z.to_nat n)) n) as (Hall & _ & _); [lia |].
  apply Forall_map. eapply Forall_impl; [exact Hall |].
  intros d Hd. simpl. rewrite (code_digit_char d Hd).
  unfold is_digit_value in Hd. lia.
Qed.

Lemma decimal_is_line n : is_line (decimal n).
Proof.
  unfold decimal. destruct (Z.ltb_spec n 0).
  - constructor; [discriminate |]. apply decimal_nat_is_line. lia.
  - now apply decimal_nat_is_line.
Qed.

(** A natural number below 10^k has at most k digits. *)
Lemma decimal_digits_length fuel : forall n k,
  0 <= n < 10 ^ Z.of_nat (S k) ->
  (length (decimal_digits fuel n) <= S k)%nat.
Proof.
  induction fuel as [| fuel IH]; intros n k Hn; simpl; [lia |].
  destruct (Z.ltb_spec n 10) as [Hlt | Hge]; simpl; [lia |].
  rewrite length_app. simpl.
  destruct k as [| k].
  - change (10 ^ Z.of_nat 1) with 10 in Hn. lia.
  - rewrite Nat2Z.inj_succ, Z.pow_succ_r in Hn by lia.
    assert (Hq : 0 <= n / 10 < 10 ^ Z.of_nat (S k)).
    { split; [apply Z.div_pos; lia |].
      apply Z.div_lt_upper_bound; lia. }
    specialize (IH _ _ Hq). lia.
Qed.

(** The integers whose text has at most five bytes: with the command
    letter they make a line that fits the buffer. *)
Lemma fits_decimal c n : -9999 <= n <= 99999 -> fits (c :: decimal n).
Proof.
  intros Hn. unfold fits, RX_CAPACITY, decimal, decimal_nat.
  destruct (Z.ltb_spec n 0); rewrite !length_cons, length_map.
  - pose proof (decimal_digits_length (S (Z.to_nat (- n))) (- n) 3) as H4.
    change (10 ^ Z.of_nat 4) with 10000 in H4.
    assert (0 <= - n < 10000) as Hr by lia. specialize (H4 Hr). lia.
  - pose proof (decimal_digits_length (S (Z.to_nat n)) n 4) as H5.
    change (10 ^ Z.of_nat 5) with 100000 in H5.
    assert (0 <= n < 100000) as Hr by lia. specialize (H5 Hr). lia.
Qed.

End Decimal.

(** ** Completed command lines *)

Section Commands.

Implicit Types (line body junk : list ascii) (st : state).

Lemma skip_space_NUL s junk :
  skip_space (s ++ NUL :: junk) = skip_space s ++ NUL :: junk.
Proof.
  induction s as [| c s IH]; simpl.
  - reflexivity.
  - destruct (isspace c); [exact IH | reflexivity].
Qed.

Lemma atoi_digits_NUL s junk : forall acc,
  atoi_digits acc (s ++ NUL :: junk) = atoi_digits acc s.
Proof.
  induction s as [| c s IH]; intros acc; simpl.
  - reflexivity.
  - destruct (isdigit c); [apply IH | reflexivity].
Qed.

(** [atoi] reads the string up to its terminator: what the buffer holds
    behind the terminator does not matter. *)
Lemma atoi_terminated s junk : atoi (s ++ NUL :: junk) = atoi s.
Proof.
  unfold atoi. rewrite skip_space_NUL.
  destruct (skip_space s) as [| c s']; [reflexivity |].
  change ((c :: s') ++ NUL :: junk) with (c :: s' ++ NUL :: junk).
  cbv iota.
  pose proof (atoi_digits_NUL (c :: s') junk 0) as E. simpl app in E.
  now rewrite E, atoi_digits_NUL.
Qed.

(** [atoi] returns an [int]. *)
Lemma atoi_range s : is_int16 (atoi s).
Proof.
  unfold atoi. destruct (skip_space s) as [| c s'].
  - unfold is_int16. lia.
  - destruct (code c =? 45); [apply to_int16_range |].
    destruct (code c =? 43); apply to_int16_range.
Qed.

(** When no number is present, [atoi] returns 0. *)
Lemma atoi_no_number s : has_number s = false -> atoi s = 0.
Proof.
  unfold has_number, atoi.
  destruct (skip_space s) as [| c s']; [reflexivity |].
  destruct (code c =? 45) eqn:E45; simpl.
  - destruct s' as [| d s'']; [reflexivity |]. simpl. intros ->. reflexivity.
  - destruct (code c =? 43) eqn:E43; simpl.
    + destruct s' as [| d s'']; [reflexivity |]. simpl. intros ->. reflexivity.
    + intros ->. reflexivity.
Qed.

(** The state after a completed [s] line. *)
Lemma receive_s_line body st :
  command_line (letter_s :: body) -> line_start st ->
  receive_line (letter_s :: body) st =
    Ok (let d := to_uint16 (atoi body) in
        mkState (letter_s :: body ++ NUL :: drop (S (S (length body))) (m_received st))
          0 (if is_sentinel d then 0 else d) (m_stepper_position st)).
Proof.
  intros [Hline Hfit] Hst.
  rewrite receive_line_fits by assumption.
  cbv zeta. unfold interpret. simpl.
  change (code (char_at (letter_s :: _) 0) =? 115) with true. cbv iota.
  rewrite !drop_0, atoi_terminated.
  destruct (is_sentinel (to_uint16 (atoi body))); reflexivity.
Qed.

(** The state after a completed [p] line. *)
Lemma receive_p_line body st :
  command_line (letter_p :: body) -> line_start st ->
  receive_line (letter_p :: body) st =
    Ok (mkState (letter_p :: body ++ NUL :: drop (S (S (length body))) (m_received st))
          0 (m_stepper_delay st) (to_uint16 (atoi body))).
Proof.
  intros [Hline Hfit] Hst.
  rewrite receive_line_fits by assumption.
  cbv zeta. unfold interpret. simpl.
  change (code (char_at (letter_p :: _) 0) =? 115) with false. cbv iota.
  change (code (char_at (letter_p :: _) 0) =? 112) with true. cbv iota.
  rewrite !drop_0, atoi_terminated. reflexivity.
Qed.

Lemma command_line_decimal c n :
  code c <> 10 -> fits (c :: decimal n) -> command_line (c :: decimal n).
Proof.
  intros Hc Hfit. split; [| assumption].
  constructor; [assumption | apply decimal_is_line].
Qed.

Lemma atoi_decimal_text n : atoi (decimal n) = to_int16 n.
Proof.
  rewrite <- (atoi_terminated (decimal n) []).
  apply atoi_decimal, stops_NUL.
Qed.

End Commands.

(** ** The command interpreter: speed, position and other lines *)

Ltac closed_line :=
  repeat constructor; let H := fresh in intro H; vm_compute in H; discriminate H.

Ltac closed_command_line :=
  split; [closed_line | unfold fits, RX_CAPACITY; simpl; lia].

Lemma line_start_reset : line_start reset_state.
Proof. split; reflexivity. Defined.

(** C2. A completed [s] line whose remainder [atoi] parses to INT16_MIN or
    to INT16_MAX leaves the delay at 0.  A remainder that holds no number at
    all also leaves it at 0 (for such a remainder [atoi] returns 0). *)
Theorem C2_sentinel_parse_sets_delay_zero (body : list ascii) (st : state) :
  command_line (letter_s :: body) -> line_start st ->
  atoi body = INT16_MIN \/ atoi body = INT16_MAX \/ has_number body = false ->
  exists st', receive_line (letter_s :: body) st = Ok st'
              /\ m_stepper_delay st' = 0.
Proof.
  intros Hcmd Hst Hparse.
  rewrite receive_s_line by assumption.
  eexists. split; [reflexivity |]. simpl.
  destruct Hparse as [-> | [-> | Hnone]]; [reflexivity | reflexivity |].
  now rewrite (atoi_no_number body Hnone).
Qed.

Lemma C2_witness :
  exists st', receive_line (chars "s32767") reset_state = Ok st'
              /\ m_stepper_delay st' = 0.
Proof.
  apply (C2_sentinel_parse_sets_delay_zero (chars "32767") reset_state).
  - closed_command_line.
  - exact line_start_reset.
  - right; left. reflexivity.
Defined.

(** Both bounds and a remainder without a number, after a delay of 5 was
    set: [s32767] parses to INT16_MAX, [s32768] to INT16_MIN, [sabc] to 0. *)
Example speed_line_bounds :
  atoi (chars "32767") = INT16_MAX
  /\ atoi (chars "32768") = INT16_MIN
  /\ atoi (chars "abc") = 0
  /\ m_stepper_delay state_s5_p20 = 5
  /\ receive_line (chars "s32767") state_s5_p20
     = Ok (mkState (chars "s32767" ++ [NUL]) 0 0 20)
  /\ receive_line (chars "s32768") state_s5_p20
     = Ok (mkState (chars "s32768" ++ [NUL]) 0 0 20)
  /\ receive_line (chars "sabc") state_s5_p20
     = Ok (mkState (chars "sabc" ++ replicate 3 NUL) 0 0 20).
Proof. repeat split. Qed.

(** C3 (as amended). A completed line [s<N>] that fits the buffer, with N in
    the signed 16-bit range and neither its minimum nor its maximum, stores N
    reduced modulo 2^16 as the delay: N itself when N is not negative,
    N + 65536 when it is. *)
Theorem C3_speed_line_sets_delay_mod_2_16 (N : Z) (st : state) :
  is_int16 N -> N <> INT16_MIN -> N <> INT16_MAX ->
  fits (letter_s :: decimal N) -> line_start st ->
  exists st', receive_line (letter_s :: decimal N) st = Ok st'
              /\ m_stepper_delay st' = to_uint16 N
              /\ (0 <= N -> m_stepper_delay st' = N)
              /\ (N < 0 -> m_stepper_delay st' = N + 65536)
              /\ m_stepper_position st' = m_stepper_position st.
Proof.
  unfold is_int16, INT16_MIN, INT16_MAX. intros HN Hmin Hmax Hfit Hst.
  rewrite receive_s_line
    by (assumption || (apply command_line_decimal; [discriminate | assumption])).
  eexists. split; [reflexivity |]. simpl.
  rewrite atoi_decimal_text, to_uint16_to_int16.
  assert (Hd : is_sentinel (to_uint16 N) = false).
  { unfold is_sentinel.
    change (to_uint16 AVR.INT16_MAX) with 32767.
    change (to_uint16 AVR.INT16_MIN) with 32768.
    destruct (Z_lt_le_dec N 0).
    - rewrite to_uint16_neg by lia.
      destruct (Z.eqb_spec (N + 65536) 32767); [lia |].
      destruct (Z.eqb_spec (N + 65536) 32768); [lia | reflexivity].
    - rewrite to_uint16_id by (unfold is_uint16; lia).
      destruct (Z.eqb_spec N 32767); [lia |].
      destruct (Z.eqb_spec N 32768); [lia | reflexivity]. }
  rewrite Hd. repeat split.
  - intros H. apply to_uint16_id. unfold is_uint16. lia.
  - intros H. apply to_uint16_neg. lia.
Qed.

Lemma C3_witness :
  exists st', receive_line (letter_s :: decimal 1234) reset_state = Ok st'
              /\ m_stepper_delay st' = to_uint16 1234
              /\ (0 <= 1234 -> m_stepper_delay st' = 1234)
              /\ (1234 < 0 -> m_stepper_delay st' = 1234 + 65536)
              /\ m_stepper_position st' = m_stepper_position reset_state.
Proof.
  apply (C3_speed_line_sets_delay_mod_2_16 1234 reset_state).
  - unfold is_int16. lia.
  - discriminate.
  - discriminate.
  - unfold fits, RX_CAPACITY. simpl. lia.
  - exact line_start_reset.
Defined.

(** The line [s-5] is a counterexample to C3 as stated: -5 is within the
    signed 16-bit range and is neither bound, the line is processed, and the
    stored delay is 65531, not -5. *)
Lemma C3_counterexample :
  is_int16 (-5) /\ -5 <> INT16_MIN /\ -5 <> INT16_MAX
  /\ decimal (-5) = chars "-5"
  /\ exists st', receive_line (letter_s :: decimal (-5)) reset_state = Ok st'
                 /\ m_stepper_delay st' = 65531
                 /\ m_stepper_delay st' <> -5.
Proof.
  split; [unfold is_int16; lia |].
  split; [discriminate |]. split; [discriminate |].
  split; [reflexivity |].
  eexists. split; [reflexivity |]. split; [reflexivity | discriminate].
Qed.

(** C4. A completed line [p<N>] stores N reduced to 16 bits as the position:
    the stored [uint16_t] is N modulo 2^16 and its reading as [int16_t] is N
    wrapped into the signed range (N itself when N is in that range).  No
    value is rejected: whatever [atoi] returns for the remainder of a [p]
    line is stored, INT16_MAX and INT16_MIN included.  The delay is not
    touched. *)
Theorem C4_position_line_sets_position (N : Z) (st : state) :
  fits (letter_p :: decimal N) -> line_start st ->
  (exists st', receive_line (letter_p :: decimal N) st = Ok st'
               /\ m_stepper_position st' = to_uint16 N
               /\ snapshot_position st' = to_int16 N
               /\ (is_int16 N -> snapshot_position st' = N)
               /\ m_stepper_delay st' = m_stepper_delay st)
  /\ (forall body, command_line (letter_p :: body) ->
       exists st', receive_line (letter_p :: body) st = Ok st'
                   /\ snapshot_position st' = atoi body).
Proof.
  intros Hfit Hst. split.
  - rewrite receive_p_line
      by (assumption || (apply command_line_decimal; [discriminate | assumption])).
    eexists. split; [reflexivity |]. unfold snapshot_position. simpl.
    rewrite atoi_decimal_text, to_uint16_to_int16, to_int16_to_uint16.
    repeat split. intros HN. now apply to_int16_id.
  - intros body Hbody. rewrite receive_p_line by assumption.
    eexists. split; [reflexivity |]. unfold snapshot_position. simpl.
    rewrite to_int16_to_uint16. apply to_int16_id, atoi_range.
Qed.

Lemma C4_witness :
  (exists st', receive_line (letter_p :: decimal 32767) reset_state = Ok st'
               /\ m_stepper_position st' = to_uint16 32767
               /\ snapshot_position st' = to_int16 32767
               /\ (is_int16 32767 -> snapshot_position st' = 32767)
               /\ m_stepper_delay st' = m_stepper_delay reset_state)
  /\ (forall body, command_line (letter_p :: body) ->
       exists st', receive_line (letter_p :: body) reset_state = Ok st'
                   /\ snapshot_position st' = atoi body).
Proof.
  apply (C4_position_line_sets_position 32767 reset_state).
  - unfold fits, RX_CAPACITY. simpl. lia.
  - exact line_start_reset.
Defined.

(** The two bounds as positions: [p32767] stores INT16_MAX, and [p32768],
    whose 16-bit reading is INT16_MIN, stores INT16_MIN. *)
Example position_line_bounds :
  match receive_line (chars "p32767") reset_state,
        receive_line (chars "p32768") reset_state with
  | Ok st1, Ok st2 =>
      snapshot_position st1 = INT16_MAX /\ snapshot_position st2 = INT16_MIN
  | _, _ => False
  end.
Proof. split; reflexivity. Qed.

(** *** The bytes behind the cursor are dead *)

Section Agreement.

Implicit Types (st : state) (buf : list ascii).

(** With the terminator at index [n], the first byte and the number [atoi]
    reads from index 1 depend on the bytes before [n] only. *)
Lemma terminated_prefix buf1 buf2 n :
  (n < length buf1)%nat -> (n < length buf2)%nat ->
  take n buf1 = take n buf2 ->
  char_at (<[n := NUL]> buf1) 0 = char_at (<[n := NUL]> buf2) 0
  /\ (code (char_at (<[n := NUL]> buf1) 0) <> 0 ->
      atoi (drop 1 (<[n := NUL]> buf1)) = atoi (drop 1 (<[n := NUL]> buf2))).
Proof.
  intros H1 H2 Htake.
  rewrite (insert_take_drop buf1), (insert_take_drop buf2) by assumption.
  rewrite <- Htake.
  destruct (take n buf1) as [| c pre]; simpl.
  - split; [reflexivity |]. intros H. now contradiction H.
  - split; [reflexivity |]. intros _. now rewrite !drop_0, !atoi_terminated.
Qed.

Lemma interpret_agree st1 st2 n :
  m_stepper_delay st1 = m_stepper_delay st2 ->
  m_stepper_position st1 = m_stepper_position st2 ->
  (n < length (m_received st1))%nat -> (n < length (m_received st2))%nat ->
  take n (m_received st1) = take n (m_received st2) ->
  forall i,
  let st1' := interpret (set_buffer (<[n := NUL]> (m_received st1)) i st1) in
  let st2' := interpret (set_buffer (<[n := NUL]> (m_received st2)) i st2) in
  m_stepper_delay st1' = m_stepper_delay st2'
  /\ m_stepper_position st1' = m_stepper_position st2'
  /\ length (m_received st1') = length (m_received st1)
  /\ length (m_received st2') = length (m_received st2).
Proof.
  intros Hd Hp H1 H2 Htake i.
  destruct (terminated_prefix _ _ n H1 H2 Htake) as [Hc Ha].
  cbv zeta. unfold interpret. simpl m_received. rewrite <- Hc.
  destruct (Z.eqb_spec (code (char_at (<[n:=NUL]> (m_received st1)) 0)) 115)
    as [E | _].
  - rewrite <- Ha by lia. simpl.
    destruct (is_sentinel _); simpl; rewrite !length_insert; auto.
  - destruct (Z.eqb_spec (code (char_at (<[n:=NUL]> (m_received st1)) 0)) 112)
      as [E | _].
    + rewrite <- Ha by lia. simpl. rewrite !length_insert. auto.
    + simpl. rewrite !length_insert. auto.
Qed.

(** One run of the handler on states that agree. *)
Lemma USART_RXC_vect_agree b st1 st2 :
  agree st1 st2 ->
  same_outcome (USART_RXC_vect b st1) (USART_RXC_vect b st2).
Proof.
  intros (Hi & Hd & Hp & H1 & H2 & Htake).
  unfold USART_RXC_vect, store. rewrite <- Hi.
  destruct (Z.leb_spec 0 (m_rx_index st1)) as [Hge | Hlt]; simpl andb.
  2:{ destruct (code b =? 10); simpl; reflexivity. }
  destruct (Z.ltb_spec (m_rx_index st1) RX_CAPACITY) as [Hin | Hout].
  2:{ destruct (code b =? 10); simpl; reflexivity. }
  unfold RX_CAPACITY in Hin.
  destruct (code b =? 10); simpl.
  - destruct (interpret_agree st1 st2 (Z.to_nat (m_rx_index st1)) Hd Hp)
      with (i := m_rx_index st1) as (Hd' & Hp' & Hl1 & Hl2);
      [lia | lia | assumption |].
    unfold agree. simpl. rewrite take_0, Hl1, Hl2. auto 10.
  - unfold agree. simpl. rewrite !length_insert.
    replace (Z.to_nat (to_uint8 (m_rx_index st1 + 1)))
      with (S (Z.to_nat (m_rx_index st1)))
      by (unfold to_uint8; rewrite Z.mod_small; lia).
    rewrite !(take_S_r _ _ b) by (apply list_lookup_insert_eq; lia).
    rewrite !take_insert_ge by lia. rewrite Htake. auto 10.
Qed.

(** Any further bytes are handled alike by states that agree. *)
Lemma receive_agree bytes : forall st1 st2,
  agree st1 st2 -> same_outcome (receive bytes st1) (receive bytes st2).
Proof.
  induction bytes as [| b bytes IH]; intros st1 st2 Hagree; simpl.
  - assumption.
  - pose proof (USART_RXC_vect_agree b st1 st2 Hagree) as Hstep.
    destruct (USART_RXC_vect b st1) as [st1' | f1],
             (USART_RXC_vect b st2) as [st2' | f2];
      simpl in *; try contradiction.
    + now apply IH.
    + assumption.
Qed.

End Agreement.

Lemma code_letter_s c : code c = 115 -> c = letter_s.
Proof. intros H. now apply code_inj. Qed.

Lemma code_letter_p c : code c = 112 -> c = letter_p.
Proof. intros H. now apply code_inj. Qed.

(** C5. A completed line that starts with neither [s] nor [p] (the empty
    line included): processing its newline leaves the delay and the position
    as they were and puts the cursor back at 0.  That is the whole effect:
    the state reached handles any further bytes as the state before the
    newline would with its cursor reset (the terminator the handler writes
    lies behind the cursor, where nothing is read before it is written). *)
Theorem C5_other_line_keeps_delay_and_position (line : list ascii) (st : state) :
  command_line line -> line_start st ->
  head line <> Some letter_s -> head line <> Some letter_p ->
  exists st_mid st',
    receive line st = Ok st_mid
    /\ USART_RXC_vect newline st_mid = Ok st'
    /\ receive_line line st = Ok st'
    /\ m_stepper_delay st_mid = m_stepper_delay st
    /\ m_stepper_position st_mid = m_stepper_position st
    /\ m_stepper_delay st' = m_stepper_delay st_mid
    /\ m_stepper_position st' = m_stepper_position st_mid
    /\ m_rx_index st' = 0
    /\ m_received st' = <[length line := NUL]> (m_received st_mid)
    /\ forall bytes,
         same_outcome (receive bytes st')
           (receive bytes (set_buffer (m_received st_mid) 0 st_mid)).
Proof.
  intros [Hline Hfit] [Hlen Hidx] Hs Hp.
  pose proof Hfit as Hfit'. unfold fits, RX_CAPACITY in Hfit'.
  assert (Hmid : receive line st =
                 Ok (set_buffer (line ++ drop (length line) (m_received st))
                       (Z.of_nat (length line)) st)).
  { rewrite (receive_bytes line st 0) by (simpl; auto; lia). reflexivity. }
  assert (Hfirst : forall buf i st0,
    interpret (set_buffer (<[length line := NUL]> (line ++ buf)) i st0)
    = set_buffer (<[length line := NUL]> (line ++ buf)) i st0).
  { intros buf i st0. unfold interpret. simpl m_received.
    rewrite insert_app_r_alt, Nat.sub_diag by lia.
    destruct line as [| c line].
    - destruct buf; reflexivity.
    - simpl app. unfold char_at. simpl nth.
      destruct (Z.eqb_spec (code c) 115) as [E | _].
      { exfalso. apply Hs. simpl. f_equal. now apply code_letter_s. }
      destruct (Z.eqb_spec (code c) 112) as [E | _].
      { exfalso. apply Hp. simpl. f_equal. now apply code_letter_p. }
      reflexivity. }
  assert (Hnl : USART_RXC_vect newline
                  (set_buffer (line ++ drop (length line) (m_received st))
                     (Z.of_nat (length line)) st)
                = Ok (set_buffer
                        (<[length line := NUL]>
                           (line ++ drop (length line) (m_received st))) 0 st)).
  { unfold USART_RXC_vect. change (code newline =? 10) with true. cbv iota.
    simpl m_received. simpl m_rx_index.
    rewrite store_inside by (unfold RX_CAPACITY; lia). simpl.
    rewrite Nat2Z.id, Hfirst. reflexivity. }
  eexists. eexists.
  split; [exact Hmid |]. split; [exact Hnl |].
  split; [unfold receive_line; rewrite receive_app, Hmid; simpl;
          now rewrite Hnl |].
  do 6 (split; [reflexivity |]).
  intros bytes. apply receive_agree.
  unfold agree. simpl. rewrite length_insert, length_app, length_drop.
  repeat (split; [reflexivity || lia |]). reflexivity.
Qed.

Lemma C5_witness :
  exists st_mid st',
    receive (chars "x12") state_s5_p20 = Ok st_mid
    /\ USART_RXC_vect newline st_mid = Ok st'
    /\ receive_line (chars "x12") state_s5_p20 = Ok st'
    /\ m_stepper_delay st_mid = m_stepper_delay state_s5_p20
    /\ m_stepper_position st_mid = m_stepper_position state_s5_p20
    /\ m_stepper_delay st' = m_stepper_delay st_mid
    /\ m_stepper_position st' = m_stepper_position st_mid
    /\ m_rx_index st' = 0
    /\ m_received st' = <[length (chars "x12") := NUL]> (m_received st_mid)
    /\ forall bytes,
         same_outcome (receive bytes st')
           (receive bytes (set_buffer (m_received st_mid) 0 st_mid)).
Proof.
  apply (C5_other_line_keeps_delay_and_position (chars "x12") state_s5_p20).
  - closed_command_line.
  - split; reflexivity.
  - discriminate.
  - discriminate.
Defined.

(** The empty line, after a speed and a position were set. *)
Example empty_line_keeps_state :
  receive_line [] (mkState (chars "p20" ++ replicate 4 NUL) 0 5 20)
  = Ok (mkState (NUL :: chars "20" ++ replicate 4 NUL) 0 5 20).
Proof. reflexivity. Qed.

(** ** Lines longer than the buffer *)

(** After seven bytes the buffer is full and the cursor is at 7. *)
Lemma receive_seven line st :
  is_line line -> line_start st -> length line = 7%nat ->
  receive line st = Ok (set_buffer line 7 st).
Proof.
  intros Hline [Hlen Hidx] H7.
  rewrite (receive_bytes line st 0) by (simpl; auto; lia).
  simpl. rewrite drop_ge by lia. rewrite app_nil_r, H7. reflexivity.
Qed.

(** C9 (as amended). A line of 7 or more bytes makes the handler store at
    index 7, past the 7-byte buffer (indices 0 to 6): for a line of exactly
    7 bytes it is the terminator written on the newline, every append having
    been inside the buffer; for 8 bytes or more it is the append of the
    eighth byte. *)
Theorem C9_long_line_stores_out_of_bounds (line : list ascii) (st : state) :
  is_line line -> line_start st -> (7 <= length line)%nat ->
  receive_line line st =
    Fault (OutOfBounds (if (length line =? 7)%nat then Terminator else Append) 7)
  /\ exists st7, receive (take 7 line) st = Ok st7 /\ m_rx_index st7 = 7.
Proof.
  intros Hline Hst Hlen.
  assert (H7 : receive (take 7 line) st = Ok (set_buffer (take 7 line) 7 st)).
  { apply receive_seven; [| assumption |].
    - apply Forall_take, Hline.
    - rewrite length_take. lia. }
  split; [| eexists; split; [exact H7 | reflexivity]].
  unfold receive_line.
  rewrite <- (take_drop 7 line) at 1.
  rewrite <- app_assoc, receive_app, H7. simpl.
  destruct (drop 7 line) as [| b rest] eqn:E.
  - assert (length line = 7%nat) as ->.
    { apply (f_equal length) in E. rewrite length_drop in E. simpl in E. lia. }
    reflexivity.
  - assert ((length line =? 7)%nat = false) as ->.
    { apply Nat.eqb_neq. apply (f_equal length) in E.
      rewrite length_drop in E. simpl in E. lia. }
    assert (Hb : code b <> 10).
    { assert (Hd : is_line (drop 7 line)) by apply Forall_drop, Hline.
      rewrite E in Hd. now inversion Hd. }
    simpl. unfold USART_RXC_vect.
    destruct (Z.eqb_spec (code b) 10); [contradiction |]. reflexivity.
Qed.

Lemma C9_witness :
  receive_line (chars "p1234567") reset_state =
    Fault (OutOfBounds
             (if (length (chars "p1234567") =? 7)%nat then Terminator else Append) 7)
  /\ exists st7, receive (take 7 (chars "p1234567")) reset_state = Ok st7
                 /\ m_rx_index st7 = 7.
Proof.
  apply (C9_long_line_stores_out_of_bounds (chars "p1234567") reset_state).
  - closed_line.
  - exact line_start_reset.
  - simpl. lia.
Defined.

(** The line [p123456] has 7 bytes before its newline and is a
    counterexample to C9 as stated: each of its bytes is appended inside the
    buffer, at indices 0 to 6, and no append is out of bounds; the store
    that leaves the buffer is the terminator's. *)
Lemma C9_counterexample :
  length (chars "p123456") = 7%nat
  /\ receive (chars "p123456") reset_state
     = Ok (mkState (chars "p123456") 7 0 0)
  /\ receive_line (chars "p123456") reset_state
     = Fault (OutOfBounds Terminator 7)
  /\ forall i, receive_line (chars "p123456") reset_state
               <> Fault (OutOfBounds Append i).
Proof.
  repeat split. intros i H. discriminate H.
Qed.

(** ** The loops of the stepping engine *)

Section Loops.

Implicit Types (fuel f k : nat) (tr : trace) (seq : list Z).

Lemma while_S {St : Type} f (test : St -> bool * St) (body : St -> option St) s :
  while (S f) test body s =
    (if (test s).1 then s2 ← body (test s).2; while f test body s2
     else Some (test s).2).
Proof. simpl. now destruct (test s). Qed.

(** [while (us--)] runs its body [us] times and leaves [us] at 65535. *)
Lemma my_delay_us_loop_runs k : forall f tr,
  (k < f)%nat -> Z.of_nat k < 65536 ->
  my_delay_us_loop f (Z.of_nat k) tr
  = Some (65535, tr ++ replicate k Delay_10us).
Proof.
  unfold my_delay_us_loop.
  induction k as [| k IH]; intros f tr Hf Hk;
    (destruct f as [| f]; [lia |]); rewrite while_S; cbn [fst snd].
  - simpl. now rewrite app_nil_r.
  - destruct (Z.eqb_spec (Z.of_nat (S k)) 0) as [E | _]; [lia |].
    cbn [negb]. simpl mbind.
    replace (to_uint16 (Z.of_nat (S k) - 1)) with (Z.of_nat k)
      by (rewrite to_uint16_id; unfold is_uint16; lia).
    rewrite IH by lia.
    now rewrite <- app_assoc.
Qed.

Lemma my_delay_us_holds fuel delay tr :
  is_uint16 delay -> (Z.to_nat delay < fuel)%nat ->
  my_delay_us fuel delay tr = Some (tr ++ hold delay).
Proof.
  unfold is_uint16. intros Hd Hf. unfold my_delay_us, hold.
  rewrite <- (Z2Nat.id delay) at 1 by lia.
  rewrite my_delay_us_loop_runs by lia. reflexivity.
Qed.

(** The [for] loop over the sequence, entered with [i = 8 - k]. *)
Lemma coil_loop_runs fuel seq delay k : forall f i tr,
  length seq = 8%nat -> is_uint16 delay -> (Z.to_nat delay < fuel)%nat ->
  (k < f)%nat -> (k <= 8)%nat -> i = 8 - Z.of_nat k ->
  while f
    (fun s : Z * trace => (s.1 <? SEQ_SIZE, s))
    (fun s : Z * trace =>
       tr' ← my_delay_us fuel delay (s.2 ++ [Write_PORTC (nth (Z.to_nat s.1) seq 0)]);
       Some (to_uint8 (s.1 + 1), tr'))
    (i, tr)
  = Some (8, tr ++ flat_map (coil_step delay) (drop (Z.to_nat i) seq)).
Proof.
  induction k as [| k IH]; intros f i tr Hseq Hd Hfuel Hf Hk Hi;
    (destruct f as [| f]; [lia |]); rewrite while_S; cbn [fst snd];
    unfold SEQ_SIZE.
  - subst i. simpl. rewrite drop_ge by (rewrite Hseq; simpl; lia).
    simpl. now rewrite app_nil_r.
  - destruct (Z.ltb_spec i 8) as [_ | Hge]; [| lia].
    rewrite my_delay_us_holds by assumption. simpl mbind.
    replace (to_uint8 (i + 1)) with (i + 1)
      by (unfold to_uint8; rewrite Z.mod_small; lia).
    rewrite (IH f (i + 1)) by (assumption || lia).
    f_equal. f_equal.
    destruct (lookup_lt_is_Some_2 seq (Z.to_nat i)) as [v Hv]; [lia |].
    rewrite (drop_S seq v (Z.to_nat i) Hv), (nth_lookup_Some _ _ 0 v Hv).
    simpl. unfold coil_step at 2.
    replace (Z.to_nat (i + 1)) with (S (Z.to_nat i)) by lia.
    rewrite <- !app_assoc. reflexivity.
Qed.

Lemma coil_loop_cycle fuel seq delay tr :
  length seq = 8%nat -> is_uint16 delay -> enough_fuel fuel ->
  coil_loop fuel seq delay 0 tr = Some (8, tr ++ cycle seq delay).
Proof.
  unfold enough_fuel, is_uint16. intros Hseq Hd Hfuel. unfold coil_loop.
  rewrite (coil_loop_runs fuel seq delay 8) by (assumption || lia).
  reflexivity.
Qed.

(** The [while] loop of [stepper_rotate], entered with [k] cycles to go. *)
Lemma rotate_loop_runs fuel seq delay n k : forall f count tr,
  length seq = 8%nat -> is_uint16 delay -> enough_fuel fuel ->
  n < 65536 -> (k < f)%nat -> 0 <= count -> count = n - Z.of_nat k ->
  while f
    (fun s : Z * trace => (s.1 <? n, s))
    (fun s : Z * trace =>
       r ← coil_loop fuel seq delay 0 s.2;
       Some (to_uint16 (s.1 + 1), r.2))
    (count, tr)
  = Some (n, tr ++ concat (replicate k (cycle seq delay))).
Proof.
  induction k as [| k IH]; intros f count tr Hseq Hd Hfuel Hn Hf Hc Hcount;
    (destruct f as [| f]; [lia |]); rewrite while_S; cbn [fst snd].
  - destruct (Z.ltb_spec count n) as [Hlt | _]; [lia |].
    simpl. rewrite app_nil_r. f_equal. f_equal. lia.
  - destruct (Z.ltb_spec count n) as [_ | Hge]; [| lia].
    rewrite coil_loop_cycle by assumption. simpl mbind. cbn [snd].
    replace (to_uint16 (count + 1)) with (count + 1)
      by (rewrite to_uint16_id; unfold is_uint16; lia).
    rewrite (IH f (count + 1)) by (assumption || lia).
    simpl. now rewrite <- app_assoc.
Qed.

(** [stepper_rotate] drives exactly [dif_position] cycles of the sequence
    it is given. *)
Lemma stepper_rotate_cycles fuel seq delay n tr :
  length seq = 8%nat -> is_uint16 delay -> is_uint16 n -> enough_fuel fuel ->
  stepper_rotate fuel seq delay n tr = Some (tr ++ cycles seq delay n).
Proof.
  intros Hseq Hd Hn Hfuel. unfold stepper_rotate, rotate_loop, cycles.
  unfold is_uint16 in Hn. pose proof Hfuel as Hfuel'. unfold enough_fuel in Hfuel'.
  rewrite (rotate_loop_runs fuel seq delay n (Z.to_nat n))
    by (assumption || lia).
  reflexivity.
Qed.

(** One iteration of [main]: the motion of the wrapped position difference,
    then [previous_position] is the position just read. *)
Lemma main_iteration_motion fuel st previous_position tr :
  is_uint16 (m_stepper_delay st) -> enough_fuel fuel ->
  main_iteration fuel st previous_position tr =
    Some (snapshot_position st,
          tr ++ motion (m_stepper_delay st)
                  (position_delta (snapshot_position st) previous_position)).
Proof.
  intros Hd Hfuel. unfold main_iteration, motion, position_delta. cbv zeta.
  set (w := to_int16 (snapshot_position st - previous_position)).
  pose proof (to_int16_range (snapshot_position st - previous_position))
    as Hw. fold w in Hw. unfold is_int16 in Hw.
  destruct (Z.gtb_spec w 0) as [Hpos | Hnpos].
  - rewrite to_uint16_id by (unfold is_uint16; lia).
    rewrite stepper_rotate_cycles
      by (assumption || reflexivity || (unfold is_uint16; lia)).
    reflexivity.
  - destruct (Z.ltb_spec w 0) as [Hneg | Hzero].
    + rewrite to_uint16_to_int16.
      rewrite (to_uint16_id (- w)) by (unfold is_uint16; lia).
      rewrite stepper_rotate_cycles
        by (assumption || reflexivity || (unfold is_uint16; lia)).
      reflexivity.
    + simpl. now rewrite app_nil_r.
Qed.

End Loops.

(** ** What a trace of cycles holds *)

Section Traces.

Implicit Types (tr rest : trace) (seq : list Z).

Lemma coil_writes_app tr1 tr2 :
  coil_writes (tr1 ++ tr2) = coil_writes tr1 ++ coil_writes tr2.
Proof.
  induction tr1 as [| [v |] tr1 IH]; simpl; [reflexivity | | assumption].
  now rewrite IH.
Qed.

Lemma coil_writes_replicate_delay n : coil_writes (replicate n Delay_10us) = [].
Proof. induction n as [| n IH]; simpl; auto. Qed.

Lemma coil_writes_cycle seq delay : coil_writes (cycle seq delay) = seq.
Proof.
  unfold cycle. induction seq as [| v seq IH]; simpl; [reflexivity |].
  unfold hold. now rewrite coil_writes_app, coil_writes_replicate_delay, IH.
Qed.

Lemma coil_writes_concat seq delay n :
  coil_writes (concat (replicate n (cycle seq delay))) = concat (replicate n seq).
Proof.
  induction n as [| n IH]; simpl; [reflexivity |].
  now rewrite coil_writes_app, coil_writes_cycle, IH.
Qed.

(** The coil patterns of [n] cycles are [n] copies of the sequence. *)
Lemma coil_writes_cycles seq delay n :
  coil_writes (cycles seq delay n) = concat (replicate (Z.to_nat n) seq).
Proof. apply coil_writes_concat. Qed.

Lemma length_concat_replicate {A : Type} (l : list A) n :
  length (concat (replicate n l)) = (n * length l)%nat.
Proof.
  induction n as [| n IH]; simpl; [reflexivity |].
  rewrite length_app, IH. reflexivity.
Qed.

Lemma count_coil_writes_cycles seq delay n :
  length seq = 8%nat -> 0 <= n ->
  Z.of_nat (length (coil_writes (cycles seq delay n))) = 8 * n.
Proof.
  intros Hseq Hn. rewrite coil_writes_cycles, length_concat_replicate, Hseq. lia.
Qed.

Lemma leading_delays_replicate n rest :
  leading_delays (replicate n Delay_10us ++ rest)
  = Z.of_nat n + leading_delays rest.
Proof.
  induction n as [| n IH]; [simpl; lia |].
  change (leading_delays (replicate (S n) Delay_10us ++ rest))
    with (1 + leading_delays (replicate n Delay_10us ++ rest)).
  rewrite IH. lia.
Qed.

Lemma holds_replicate n rest :
  holds (replicate n Delay_10us ++ rest) = holds rest.
Proof. induction n as [| n IH]; simpl; auto. Qed.

Lemma leading_delays_cycle seq delay rest :
  leading_delays rest = 0 -> leading_delays (cycle seq delay ++ rest) = 0.
Proof. destruct seq; simpl; auto. Qed.

(** In the trace of a cycle every pattern is held for [delay] calls of the
    delay primitive. *)
Lemma holds_cycle seq delay rest :
  0 <= delay -> leading_delays rest = 0 ->
  holds (cycle seq delay ++ rest) = map (fun v => (v, delay)) seq ++ holds rest.
Proof.
  intros Hd Hrest. unfold cycle.
  induction seq as [| v seq IH]; simpl; [reflexivity |].
  unfold hold. rewrite <- !app_assoc.
  rewrite leading_delays_replicate, holds_replicate, IH.
  fold (cycle seq delay). rewrite leading_delays_cycle by assumption.
  do 2 f_equal. lia.
Qed.

Lemma leading_delays_concat seq delay n :
  leading_delays (concat (replicate n (cycle seq delay))) = 0.
Proof.
  destruct n as [| n]; simpl; [reflexivity |].
  apply leading_delays_cycle.
  induction n as [| n IH]; simpl; [reflexivity |].
  now apply leading_delays_cycle.
Qed.

Lemma holds_concat seq delay n :
  0 <= delay ->
  holds (concat (replicate n (cycle seq delay)))
  = map (fun v => (v, delay)) (concat (replicate n seq)).
Proof.
  intros Hd. induction n as [| n IH]; simpl; [reflexivity |].
  rewrite holds_cycle, IH, map_app; auto using leading_delays_concat.
Qed.

Lemma holds_cycles seq delay n :
  0 <= delay ->
  holds (cycles seq delay n) = map (fun v => (v, delay)) (coil_writes (cycles seq delay n)).
Proof.
  intros Hd. rewrite coil_writes_cycles. now apply holds_concat.
Qed.

Lemma holds_motion delay w :
  0 <= delay ->
  holds (motion delay w) = map (fun v => (v, delay)) (coil_writes (motion delay w)).
Proof.
  intros Hd. unfold motion.
  destruct (w >? 0); [now apply holds_cycles |].
  destruct (w <? 0); [now apply holds_cycles | reflexivity].
Qed.

Lemma cycle_without_delay seq : cycle seq 0 = map Write_PORTC seq.
Proof.
  unfold cycle. induction seq as [| v seq IH]; simpl; [reflexivity |].
  now rewrite IH.
Qed.

Lemma cycles_without_delay seq n :
  concat (replicate n (cycle seq 0)) = map Write_PORTC (concat (replicate n seq)).
Proof.
  induction n as [| n IH]; simpl; [reflexivity |].
  now rewrite map_app, IH, cycle_without_delay.
Qed.

(** The wrapped difference is the true difference when that one is
    representable, and is off by 2^16 otherwise. *)
Lemma position_delta_exact P1 P0 :
  is_int16 (P1 - P0) -> position_delta P1 P0 = P1 - P0.
Proof. apply to_int16_id. Qed.

Lemma position_delta_wraps P1 P0 :
  is_int16 P1 -> is_int16 P0 ->
  (32767 < P1 - P0 -> position_delta P1 P0 = P1 - P0 - 65536)
  /\ (P1 - P0 < -32768 -> position_delta P1 P0 = P1 - P0 + 65536).
Proof.
  unfold is_int16, position_delta, to_int16. intros H1 H0. split; intros H.
  - replace (P1 - P0 + 32768) with (P1 - P0 - 32768 + 1 * 65536) by lia.
    rewrite Z.mod_add, Z.mod_small by lia. lia.
  - replace (P1 - P0 + 32768) with (P1 - P0 + 98304 + (-1) * 65536) by lia.
    rewrite Z.mod_add, Z.mod_small by lia. lia.
Qed.

Lemma position_delta_congruent P1 P0 :
  (position_delta P1 P0 - (P1 - P0)) mod 65536 = 0.
Proof.
  unfold position_delta, to_int16.
  pose proof (Z.div_mod (P1 - P0 + 32768) 65536) as E.
  replace ((P1 - P0 + 32768) mod 65536 - 32768 - (P1 - P0))
    with ((- ((P1 - P0 + 32768) / 65536)) * 65536) by lia.
  apply Z.mod_mul. lia.
Qed.

End Traces.

(** ** The stepping engine: one iteration of the foreground loop *)

(** C1 (as amended). In an iteration with previous position P0 and snapshot
    position P1 whose difference P1 - P0 is representable in 16 signed bits,
    the engine emits exactly P1 - P0 clockwise cycles when P1 > P0, exactly
    P0 - P1 counter-clockwise cycles when P1 < P0, and nothing when they are
    equal; a cycle is 8 coil writes; afterwards the previous position
    is P1. *)
Theorem C1_iteration_drives_position_difference
    (fuel : nat) (st : state) (P0 : Z) (tr : trace) :
  is_uint16 (m_stepper_delay st) ->
  is_int16 (snapshot_position st - P0) ->
  enough_fuel fuel ->
  exists tr',
    main_iteration fuel st P0 tr = Some (snapshot_position st, tr ++ tr')
    /\ (snapshot_position st > P0 ->
        tr' = cycles seq_cw (m_stepper_delay st) (snapshot_position st - P0)
        /\ Z.of_nat (length (coil_writes tr')) = 8 * (snapshot_position st - P0))
    /\ (snapshot_position st < P0 ->
        tr' = cycles seq_ccw (m_stepper_delay st) (P0 - snapshot_position st)
        /\ Z.of_nat (length (coil_writes tr')) = 8 * (P0 - snapshot_position st))
    /\ (snapshot_position st = P0 -> tr' = []).
Proof.
  intros Hd Hdiff Hfuel.
  rewrite main_iteration_motion by assumption.
  rewrite position_delta_exact by assumption.
  eexists. split; [reflexivity |]. unfold motion.
  split; [| split]; intros H.
  - destruct (Z.gtb_spec (snapshot_position st - P0) 0); [| lia].
    split; [reflexivity |]. apply count_coil_writes_cycles; [reflexivity | lia].
  - destruct (Z.gtb_spec (snapshot_position st - P0) 0); [lia |].
    destruct (Z.ltb_spec (snapshot_position st - P0) 0); [| lia].
    replace (- (snapshot_position st - P0)) with (P0 - snapshot_position st) by lia.
    split; [reflexivity |]. apply count_coil_writes_cycles; [reflexivity | lia].
  - destruct (Z.gtb_spec (snapshot_position st - P0) 0); [lia |].
    destruct (Z.ltb_spec (snapshot_position st - P0) 0); [lia | reflexivity].
Qed.

Lemma C1_witness :
  exists tr',
    main_iteration (Z.to_nat 65536) state_s5_p20 0 [] =
      Some (snapshot_position state_s5_p20, [] ++ tr')
    /\ (snapshot_position state_s5_p20 > 0 ->
        tr' = cycles seq_cw (m_stepper_delay state_s5_p20)
                (snapshot_position state_s5_p20 - 0)
        /\ Z.of_nat (length (coil_writes tr'))
           = 8 * (snapshot_position state_s5_p20 - 0))
    /\ (snapshot_position state_s5_p20 < 0 ->
        tr' = cycles seq_ccw (m_stepper_delay state_s5_p20)
                (0 - snapshot_position state_s5_p20)
        /\ Z.of_nat (length (coil_writes tr'))
           = 8 * (0 - snapshot_position state_s5_p20))
    /\ (snapshot_position state_s5_p20 = 0 -> tr' = []).
Proof.
  apply (C1_iteration_drives_position_difference
           (Z.to_nat 65536) state_s5_p20 0 []).
  - unfold is_uint16. simpl. lia.
  - unfold is_int16. vm_compute. split; discriminate.
  - unfold enough_fuel. lia.
Defined.

(** Counterexample to C1 as stated: with P0 = -32768 and P1 = 32767,
    P1 > P0, yet the iteration emits one counter-clockwise cycle, not
    P1 - P0 = 65535 clockwise cycles. *)
Lemma C1_counterexample :
  snapshot_position state_p32767 = 32767
  /\ 32767 > -32768
  /\ enough_fuel (Z.to_nat 65536)
  /\ main_iteration (Z.to_nat 65536) state_p32767 (-32768) []
     = Some (32767, cycles seq_ccw 0 1)
  /\ coil_writes (cycles seq_ccw 0 1) = seq_ccw
  /\ cycles seq_ccw 0 1 <> cycles seq_cw 0 (32767 - (-32768)).
Proof.
  split; [reflexivity |]. split; [lia |].
  split; [unfold enough_fuel; lia |].
  split; [vm_compute; reflexivity |].
  split; [reflexivity |].
  intros H. apply (f_equal coil_writes) in H.
  rewrite !coil_writes_cycles in H.
  apply (f_equal length) in H. rewrite !length_concat_replicate in H.
  change (length seq_ccw) with 8%nat in H.
  change (length seq_cw) with 8%nat in H. lia.
Qed.

(** C6. In every iteration the coil patterns written are whole copies of
    one table, in table order: [0x1,0x3,0x2,0x6,0x4,0xc,0x8,0x9] when the
    rotation is clockwise, [0x9,0x8,0xc,0x4,0x6,0x2,0x3,0x1] when it is
    counter-clockwise. *)
Theorem C6_cycle_patterns_follow_table
    (fuel : nat) (st : state) (P0 : Z) (tr : trace) :
  is_uint16 (m_stepper_delay st) ->
  enough_fuel fuel ->
  exists tr',
    main_iteration fuel st P0 tr = Some (snapshot_position st, tr ++ tr')
    /\ (position_delta (snapshot_position st) P0 > 0 ->
        coil_writes tr' =
          concat (replicate (Z.to_nat (position_delta (snapshot_position st) P0))
                    [1; 3; 2; 6; 4; 12; 8; 9]))
    /\ (position_delta (snapshot_position st) P0 < 0 ->
        coil_writes tr' =
          concat (replicate (Z.to_nat (- position_delta (snapshot_position st) P0))
                    [9; 8; 12; 4; 6; 2; 3; 1])).
Proof.
  intros Hd Hfuel.
  rewrite main_iteration_motion by assumption.
  eexists. split; [reflexivity |]. unfold motion.
  split; intros H.
  - destruct (Z.gtb_spec (position_delta (snapshot_position st) P0) 0); [| lia].
    apply coil_writes_cycles.
  - destruct (Z.gtb_spec (position_delta (snapshot_position st) P0) 0); [lia |].
    destruct (Z.ltb_spec (position_delta (snapshot_position st) P0) 0); [| lia].
    apply coil_writes_cycles.
Qed.

Lemma C6_witness :
  exists tr',
    main_iteration (Z.to_nat 65536) state_s5_p20 23 [] =
      Some (snapshot_position state_s5_p20, [] ++ tr')
    /\ (position_delta (snapshot_position state_s5_p20) 23 > 0 ->
        coil_writes tr' =
          concat (replicate
                    (Z.to_nat (position_delta (snapshot_position state_s5_p20) 23))
                    [1; 3; 2; 6; 4; 12; 8; 9]))
    /\ (position_delta (snapshot_position state_s5_p20) 23 < 0 ->
        coil_writes tr' =
          concat (replicate
                    (Z.to_nat (- position_delta (snapshot_position state_s5_p20) 23))
                    [9; 8; 12; 4; 6; 2; 3; 1])).
Proof.
  apply (C6_cycle_patterns_follow_table (Z.to_nat 65536) state_s5_p20 23 []).
  - unfold is_uint16. simpl. lia.
  - unfold enough_fuel. lia.
Defined.

(** One cycle of each table, as [stepper_rotate] writes it. *)
Example one_cycle_each_way :
  (coil_writes <$> stepper_rotate 9 seq_cw 0 1 []) = Some [1; 3; 2; 6; 4; 12; 8; 9]
  /\ (coil_writes <$> stepper_rotate 9 seq_ccw 0 1 []) = Some [9; 8; 12; 4; 6; 2; 3; 1].
Proof. split; reflexivity. Qed.

(** C7. For every delay D the delay loop terminates after exactly D calls
    of the 10 us primitive, and in an iteration every coil write is followed
    by exactly D such calls; for D = 0 by none. *)
Theorem C7_each_write_held_for_delay
    (fuel : nat) (st : state) (P0 : Z) (tr : trace) :
  is_uint16 (m_stepper_delay st) ->
  enough_fuel fuel ->
  (forall tr0, my_delay_us fuel (m_stepper_delay st) tr0
               = Some (tr0 ++ replicate (Z.to_nat (m_stepper_delay st)) Delay_10us))
  /\ exists tr',
       main_iteration fuel st P0 tr = Some (snapshot_position st, tr ++ tr')
       /\ holds tr' = map (fun v => (v, m_stepper_delay st)) (coil_writes tr')
       /\ (m_stepper_delay st = 0 -> tr' = map Write_PORTC (coil_writes tr')).
Proof.
  intros Hd Hfuel. split.
  - intros tr0. apply my_delay_us_holds; [assumption |].
    unfold enough_fuel in Hfuel. unfold is_uint16 in Hd. lia.
  - rewrite main_iteration_motion by assumption.
    eexists. split; [reflexivity |]. split.
    + apply holds_motion. unfold is_uint16 in Hd. lia.
    + intros H0. rewrite H0.
      assert (Hc : forall seq n,
        concat (replicate n (cycle seq 0))
        = map Write_PORTC (coil_writes (concat (replicate n (cycle seq 0))))).
      { intros seq n. rewrite coil_writes_concat. apply cycles_without_delay. }
      unfold motion, cycles.
      destruct (_ >? 0); [apply Hc |].
      destruct (_ <? 0); [apply Hc | reflexivity].
Qed.

Lemma C7_witness :
  (forall tr0, my_delay_us (Z.to_nat 65536) (m_stepper_delay state_s5_p20) tr0
               = Some (tr0 ++ replicate (Z.to_nat (m_stepper_delay state_s5_p20))
                                Delay_10us))
  /\ exists tr',
       main_iteration (Z.to_nat 65536) state_s5_p20 0 [] =
         Some (snapshot_position state_s5_p20, [] ++ tr')
       /\ holds tr' = map (fun v => (v, m_stepper_delay state_s5_p20)) (coil_writes tr')
       /\ (m_stepper_delay state_s5_p20 = 0 -> tr' = map Write_PORTC (coil_writes tr')).
Proof.
  apply (C7_each_write_held_for_delay (Z.to_nat 65536) state_s5_p20 0 []).
  - unfold is_uint16. simpl. lia.
  - unfold enough_fuel. lia.
Defined.

(** The delay loop on its own: 3 calls for a delay of 3, none for 0. *)
Example my_delay_us_counts :
  my_delay_us 4 3 [] = Some [Delay_10us; Delay_10us; Delay_10us]
  /\ my_delay_us 1 0 [] = Some [].
Proof. split; reflexivity. Qed.

(** C10. The difference the engine acts on is P1 - P0 reduced into the
    signed 16-bit range modulo 2^16: it lies in that range, differs from
    P1 - P0 by a multiple of 2^16 (by 2^16 exactly when P1 - P0 is out of
    the range), and the rotation follows its sign and its magnitude. *)
Theorem C10_delta_wraps_modulo_2_16
    (fuel : nat) (st : state) (P0 : Z) (tr : trace) :
  is_uint16 (m_stepper_delay st) ->
  is_int16 P0 ->
  enough_fuel fuel ->
  exists w,
    w = position_delta (snapshot_position st) P0
    /\ is_int16 w
    /\ (w - (snapshot_position st - P0)) mod 65536 = 0
    /\ (32767 < snapshot_position st - P0 -> w = snapshot_position st - P0 - 65536)
    /\ (snapshot_position st - P0 < -32768 -> w = snapshot_position st - P0 + 65536)
    /\ main_iteration fuel st P0 tr =
         Some (snapshot_position st,
               tr ++ (if w >? 0 then cycles seq_cw (m_stepper_delay st) w
                      else if w <? 0 then cycles seq_ccw (m_stepper_delay st) (- w)
                      else [])).
Proof.
  intros Hd HP0 Hfuel. eexists. split; [reflexivity |].
  split; [apply to_int16_range |].
  split; [apply position_delta_congruent |].
  pose proof (position_delta_wraps (snapshot_position st) P0
                (to_int16_range _) HP0) as [Hhi Hlo].
  split; [exact Hhi |]. split; [exact Hlo |].
  now apply main_iteration_motion.
Qed.

Lemma C10_witness :
  exists w,
    w = position_delta (snapshot_position state_p32767) (-32768)
    /\ is_int16 w
    /\ (w - (snapshot_position state_p32767 - (-32768))) mod 65536 = 0
    /\ (32767 < snapshot_position state_p32767 - (-32768) ->
        w = snapshot_position state_p32767 - (-32768) - 65536)
    /\ (snapshot_position state_p32767 - (-32768) < -32768 ->
        w = snapshot_position state_p32767 - (-32768) + 65536)
    /\ main_iteration (Z.to_nat 65536) state_p32767 (-32768) [] =
         Some (snapshot_position state_p32767,
               [] ++ (if w >? 0 then cycles seq_cw (m_stepper_delay state_p32767) w
                      else if w <? 0
                           then cycles seq_ccw (m_stepper_delay state_p32767) (- w)
                           else [])).
Proof.
  apply (C10_delta_wraps_modulo_2_16 (Z.to_nat 65536) state_p32767 (-32768) []).
  - unfold is_uint16. simpl. lia.
  - unfold is_int16. lia.
  - unfold enough_fuel. lia.
Defined.

(** The example states are reached from reset by the lines that name
    them. *)
Example example_states_reached :
  receive (chars "s5" ++ [newline] ++ chars "p20" ++ [newline]) reset_state
  = Ok state_s5_p20
  /\ receive (chars "p32768" ++ [newline] ++ chars "p32767" ++ [newline]) reset_state
     = Ok state_p32767.
Proof. split; reflexivity. Qed.

(** The scenario of the serial protocol: [s5] and [p20] from reset drive 20
    clockwise cycles at delay 5 and leave the previous position at 20; then
    [p15] drives 5 counter-clockwise cycles and leaves it at 15; a repeated
    [p15] drives nothing. *)
Example scenario_s5_p20_p15 :
  match receive (chars "s5" ++ [newline] ++ chars "p20" ++ [newline]) reset_state with
  | Ok st1 =>
      main_iteration 30 st1 0 [] = Some (20, cycles seq_cw 5 20)
      /\ match receive_line (chars "p15") st1 with
         | Ok st2 =>
             main_iteration 30 st2 20 [] = Some (15, cycles seq_ccw 5 5)
             /\ match receive_line (chars "p15") st2 with
                | Ok st3 => main_iteration 30 st3 15 [] = Some (15, [])
                | Fault _ => False
                end
         | Fault _ => False
         end
  | Fault _ => False
  end.
Proof. vm_compute. repeat split. Qed.

(** ** What every run of the handler maintains *)

Section Invariant.

Lemma interpret_well_formed st : well_formed st -> well_formed (interpret st).
Proof.
  unfold well_formed, interpret. intros (Hlen & Hidx & Hd & Hp).
  destruct (_ =? 115); [| destruct (_ =? 112)]; simpl.
  - destruct (is_sentinel _); simpl;
      (split; [assumption |]; split; [assumption |]; split; [| assumption]).
    + unfold is_uint16. lia.
    + apply to_uint16_range.
  - split; [assumption |]. split; [assumption |]. split; [assumption |].
    apply to_uint16_range.
  - auto.
Qed.

Lemma USART_RXC_vect_well_formed b st st' :
  well_formed st -> USART_RXC_vect b st = Ok st' -> well_formed st'.
Proof.
  intros (Hlen & Hidx & Hd & Hp). unfold USART_RXC_vect, store.
  destruct (code b =? 10);
    (destruct ((0 <=? m_rx_index st) && (m_rx_index st <? RX_CAPACITY));
     simpl; [| discriminate]); intros [= <-].
  - destruct (interpret_well_formed
                (set_buffer (<[Z.to_nat (m_rx_index st) := NUL]> (m_received st))
                   (m_rx_index st) st)) as (Hlen' & _ & Hd' & Hp').
    { unfold well_formed. simpl. rewrite length_insert. auto. }
    unfold well_formed. simpl.
    split; [assumption |]. split; [lia |]. split; assumption.
  - unfold well_formed. simpl. rewrite length_insert.
    split; [assumption |]. split; [| split; assumption].
    unfold to_uint8. apply Z.mod_pos_bound. lia.
Qed.

(** After any received bytes that did not leave the buffer, the state is
    well formed; in particular the delay the engine snapshots is a
    [uint16_t]. *)
Lemma receive_well_formed bytes : forall st st',
  well_formed st -> receive bytes st = Ok st' -> well_formed st'.
Proof.
  induction bytes as [| b bytes IH]; intros st st' Hwf; simpl.
  - now intros [= <-].
  - destruct (USART_RXC_vect b st) as [st1 | f] eqn:E; simpl; [| discriminate].
    apply IH. eapply USART_RXC_vect_well_formed; eauto.
Qed.

Lemma well_formed_reset : well_formed reset_state.
Proof.
  unfold well_formed, is_uint16. simpl.
  split; [reflexivity |]. lia.
Qed.

(** Every completed line leaves the handler at the start of a line. *)
Lemma receive_line_line_start line st st' :
  well_formed st -> receive_line line st = Ok st' -> line_start st'.
Proof.
  intros Hwf H. unfold receive_line in H. rewrite receive_app in H.
  destruct (receive line st) as [st1 | f] eqn:E; simpl in H; [| discriminate].
  pose proof (receive_well_formed _ _ _ Hwf E) as Hwf1.
  destruct (USART_RXC_vect newline st1) as [st2 | f] eqn:E2; simpl in H;
    [| discriminate].
  injection H as <-.
  pose proof (USART_RXC_vect_well_formed _ _ _ Hwf1 E2) as (Hlen & _).
  split; [assumption |].
  unfold USART_RXC_vect in E2. change (code newline =? 10) with true in E2.
  cbv iota in E2.
  destruct (store Terminator (m_received st1) (m_rx_index st1) NUL);
    simpl in E2; [| discriminate].
  now injection E2 as <-.
Qed.

End Invariant.

(** * Further properties of the command interpreter *)

Section HandlerInvariants.

Implicit Types (st : state) (line body bytes : list ascii).

Lemma is_sentinel_false d :
  is_sentinel d = false -> d <> 32767 /\ d <> 32768.
Proof.
  unfold is_sentinel.
  change (to_uint16 INT16_MAX) with 32767.
  change (to_uint16 INT16_MIN) with 32768.
  intros H. apply orb_false_elim in H as [H1 H2].
  apply Z.eqb_neq in H1, H2. auto.
Qed.

Lemma interpret_delay_not_rejected st :
  m_stepper_delay st <> 32767 -> m_stepper_delay st <> 32768 ->
  m_stepper_delay (interpret st) <> 32767
  /\ m_stepper_delay (interpret st) <> 32768.
Proof.
  intros H1 H2. unfold interpret.
  destruct (_ =? 115); [| destruct (_ =? 112)]; simpl; auto.
  destruct (is_sentinel _) eqn:E; simpl.
  - split; discriminate.
  - now apply is_sentinel_false.
Qed.

(** The handler changes the delay and the position on a newline only, and
    then at most one of the two. *)
Lemma interpret_one_field st :
  m_stepper_delay (interpret st) = m_stepper_delay st
  \/ m_stepper_position (interpret st) = m_stepper_position st.
Proof.
  unfold interpret.
  destruct (_ =? 115); [| destruct (_ =? 112)]; simpl; auto.
  destruct (is_sentinel _); simpl; auto.
Qed.

Lemma USART_RXC_vect_settled b st st' :
  settled st -> USART_RXC_vect b st = Ok st' -> settled st'.
Proof.
  intros (Hwf & Hidx & H1 & H2) Hstep.
  split; [exact (USART_RXC_vect_well_formed b st st' Hwf Hstep) |].
  revert Hstep. unfold USART_RXC_vect, store.
  destruct (code b =? 10);
    (destruct (Z.leb_spec 0 (m_rx_index st)); simpl andb; [| discriminate]);
    (destruct (Z.ltb_spec (m_rx_index st) RX_CAPACITY); simpl;
     [| discriminate]); intros [= <-]; simpl.
  - split; [lia |]. now apply interpret_delay_not_rejected.
  - unfold RX_CAPACITY in *. unfold to_uint8.
    rewrite Z.mod_small by lia. split; [lia | auto].
Qed.

Lemma receive_settled bytes : forall st st',
  settled st -> receive bytes st = Ok st' -> settled st'.
Proof.
  induction bytes as [| b bytes IH]; intros st st' Hst; simpl.
  - now intros [= <-].
  - destruct (USART_RXC_vect b st) as [st1 | f] eqn:E; simpl; [| discriminate].
    apply IH. eapply USART_RXC_vect_settled; eauto.
Qed.

Lemma settled_reset : settled reset_state.
Proof.
  split; [apply well_formed_reset |]. simpl.
  split; [lia |]. split; discriminate.
Qed.

End HandlerInvariants.

(** X1. Whatever bytes arrive after reset, as long as no store has left the
    buffer: the buffer has its 7 bytes, the cursor is between 0 and 7, the
    delay and the position are 16-bit unsigned values, and the delay is
    neither 32767 nor 32768. *)
Theorem reachable_state_is_settled (bytes : list ascii) (st' : state) :
  receive bytes reset_state = Ok st' ->
  length (m_received st') = 7%nat
  /\ 0 <= m_rx_index st' <= 7
  /\ is_uint16 (m_stepper_delay st')
  /\ is_uint16 (m_stepper_position st')
  /\ m_stepper_delay st' <> 32767
  /\ m_stepper_delay st' <> 32768.
Proof.
  intros H.
  destruct (receive_settled bytes reset_state st' settled_reset H)
    as ((Hlen & Hidx & Hd & Hp) & Hle & H1 & H2).
  split; [assumption |]. split; [lia |]. auto.
Qed.

Lemma reachable_state_is_settled_witness :
  length (m_received state_s5_p20) = 7%nat
  /\ 0 <= m_rx_index state_s5_p20 <= 7
  /\ is_uint16 (m_stepper_delay state_s5_p20)
  /\ is_uint16 (m_stepper_position state_s5_p20)
  /\ m_stepper_delay state_s5_p20 <> 32767
  /\ m_stepper_delay state_s5_p20 <> 32768.
Proof.
  apply (reachable_state_is_settled
           (chars "s5" ++ [newline] ++ chars "p20" ++ [newline]) state_s5_p20).
  reflexivity.
Defined.

(** X2. One run of the handler changes the delay and the position only when
    the byte is a newline, and then at most one of the two. *)
Theorem handler_touches_at_most_one_field (b : ascii) (st st' : state) :
  USART_RXC_vect b st = Ok st' ->
  (code b <> 10 ->
   m_stepper_delay st' = m_stepper_delay st
   /\ m_stepper_position st' = m_stepper_position st)
  /\ (m_stepper_delay st' = m_stepper_delay st
      \/ m_stepper_position st' = m_stepper_position st).
Proof.
  unfold USART_RXC_vect.
  destruct (Z.eqb_spec (code b) 10) as [E | E].
  - destruct (store Terminator _ _ _) as [buf |]; simpl; [| discriminate].
    intros [= <-]. simpl. split; [intros H; contradiction |].
    apply (interpret_one_field (set_buffer buf (m_rx_index st) st)).
  - destruct (store Append _ _ _) as [buf |]; simpl; [| discriminate].
    intros [= <-]. simpl. auto.
Qed.

Lemma handler_touches_at_most_one_field_witness :
  (code (ascii_of_N 49) <> 10 ->
   m_stepper_delay (mkState (chars "1" ++ replicate 6 NUL) 1 0 0)
   = m_stepper_delay reset_state
   /\ m_stepper_position (mkState (chars "1" ++ replicate 6 NUL) 1 0 0)
      = m_stepper_position reset_state)
  /\ (m_stepper_delay (mkState (chars "1" ++ replicate 6 NUL) 1 0 0)
      = m_stepper_delay reset_state
      \/ m_stepper_position (mkState (chars "1" ++ replicate 6 NUL) 1 0 0)
         = m_stepper_position reset_state).
Proof.
  apply (handler_touches_at_most_one_field (ascii_of_N 49) reset_state).
  reflexivity.
Defined.

Section Lines.

Implicit Types (st : state) (line body bytes : list ascii).

(** A completed line that fits leaves the handler at the start of a line,
    with the delay and the position [line_effect] gives. *)
Lemma receive_line_effect line st :
  command_line line -> line_start st ->
  exists st', receive_line line st = Ok st'
              /\ line_start st'
              /\ (m_stepper_delay st', m_stepper_position st')
                 = line_effect line (m_stepper_delay st, m_stepper_position st).
Proof.
  intros [Hline Hfit] Hst. pose proof Hst as [Hlen Hidx].
  unfold fits, RX_CAPACITY in Hfit.
  rewrite receive_line_fits by (assumption || now split).
  eexists. split; [reflexivity |]. cbv zeta.
  unfold interpret. simpl m_received.
  destruct line as [| c body].
  - split; [| reflexivity]. split; [| reflexivity].
    simpl. rewrite length_drop. lia.
  - simpl length in Hfit.
    assert (Hl : length ((c :: body) ++ NUL :: drop (S (length (c :: body))) (m_received st))
                 = 7%nat).
    { rewrite length_app. simpl. rewrite length_drop. lia. }
    set (junk := drop (S (length (c :: body))) (m_received st)) in *.
    change ((c :: body) ++ NUL :: junk) with (c :: (body ++ NUL :: junk)) in *.
    change (drop 1 (c :: (body ++ NUL :: junk))) with (body ++ NUL :: junk).
    change (char_at (c :: (body ++ NUL :: junk)) 0) with c.
    rewrite atoi_terminated. simpl line_effect.
    destruct (code c =? 115).
    + simpl. destruct (is_sentinel _); simpl; (split; [now split | reflexivity]).
    + destruct (code c =? 112); simpl; (split; [now split | reflexivity]).
Qed.

Lemma receive_stream_cons line lines st :
  receive (stream (line :: lines)) st
  = receive_line line st ≫= receive (stream lines).
Proof. unfold stream. simpl. now rewrite receive_app. Qed.

(** A line of 7 bytes or more ends in a fault. *)
Lemma long_line_faults line st :
  is_line line -> line_start st -> (7 <= length line)%nat ->
  exists f, receive_line line st = Fault f.
Proof.
  intros Hline Hst Hlen.
  assert (H7 : receive (take 7 line) st = Ok (set_buffer (take 7 line) 7 st)).
  { apply receive_seven; [apply Forall_take, Hline | assumption |].
    rewrite length_take. lia. }
  assert (Hrun : receive_line line st
                 = receive (drop 7 line ++ [newline])
                     (set_buffer (take 7 line) 7 st)).
  { unfold receive_line. rewrite <- (take_drop 7 line) at 1.
    now rewrite <- app_assoc, receive_app, H7. }
  rewrite Hrun.
  destruct (drop 7 line) as [| b rest] eqn:E; simpl.
  - eexists. reflexivity.
  - assert (Hb : code b <> 10).
    { assert (Hd : is_line (drop 7 line)) by apply Forall_drop, Hline.
      rewrite E in Hd. now inversion Hd. }
    unfold USART_RXC_vect.
    destruct (Z.eqb_spec (code b) 10); [contradiction |].
    eexists. reflexivity.
Qed.

End Lines.

(** X3. What the buffer still holds from earlier lines has no influence:
    two states at the start of a line with the same delay and the same
    position handle any further bytes alike (the same fault, or states with
    the same cursor, delay, position and bytes before the cursor). *)
Theorem stale_buffer_has_no_influence (st1 st2 : state) (bytes : list ascii) :
  line_start st1 -> line_start st2 ->
  m_stepper_delay st1 = m_stepper_delay st2 ->
  m_stepper_position st1 = m_stepper_position st2 ->
  same_outcome (receive bytes st1) (receive bytes st2).
Proof.
  intros [Hl1 Hi1] [Hl2 Hi2] Hd Hp. apply receive_agree.
  unfold agree. rewrite Hi1, Hi2. simpl. auto 10.
Qed.

Lemma stale_buffer_has_no_influence_witness :
  same_outcome (receive (chars "s7") reset_state)
    (receive (chars "s7") (mkState (chars "p123456") 0 0 0)).
Proof.
  apply (stale_buffer_has_no_influence reset_state
           (mkState (chars "p123456") 0 0 0) (chars "s7"));
    (split; reflexivity) || reflexivity.
Defined.

(** X4. A stream of command lines acts line by line: after the bytes of
    several lines that fit, each followed by its newline, the handler is at
    the start of a line again, and the delay and the position are what the
    lines, taken one after the other, make of them. *)
Theorem stream_of_lines_acts_line_by_line (lines : list (list ascii)) :
  forall st,
  Forall command_line lines -> line_start st ->
  exists st', receive (stream lines) st = Ok st'
              /\ line_start st'
              /\ (m_stepper_delay st', m_stepper_position st')
                 = fold_left (fun dp line => line_effect line dp) lines
                     (m_stepper_delay st, m_stepper_position st).
Proof.
  induction lines as [| line lines IH]; intros st Hlines Hst.
  - exists st. simpl. auto.
  - inversion Hlines as [| ? ? Hline Hrest]; subst.
    destruct (receive_line_effect line st Hline Hst) as (st1 & Hrun & Hst1 & Heff).
    destruct (IH st1 Hrest Hst1) as (st' & Hrun' & Hst' & Heff').
    exists st'. rewrite receive_stream_cons, Hrun. simpl.
    split; [exact Hrun' |]. split; [exact Hst' |].
    now rewrite Heff', Heff.
Qed.

Lemma stream_of_lines_acts_line_by_line_witness :
  exists st', receive (stream [chars "s5"; chars "x"; chars "p20"; []]) reset_state
              = Ok st'
              /\ line_start st'
              /\ (m_stepper_delay st', m_stepper_position st')
                 = fold_left (fun dp line => line_effect line dp)
                     [chars "s5"; chars "x"; chars "p20"; []]
                     (m_stepper_delay reset_state, m_stepper_position reset_state).
Proof.
  apply (stream_of_lines_acts_line_by_line
           [chars "s5"; chars "x"; chars "p20"; []] reset_state).
  - repeat (apply Forall_cons; split; [closed_command_line |]).
    apply Forall_nil. exact I.
  - exact line_start_reset.
Defined.

(** X5. The speed command over the whole unsigned range: for N from 0 to
    65535 the line [s<N>] stores exactly N as the delay, except for 32767
    and 32768, for which it stores 0.  The position is not touched. *)
Theorem speed_line_unsigned_range (N : Z) (st : state) :
  0 <= N <= 65535 -> line_start st ->
  exists st', receive_line (letter_s :: decimal N) st = Ok st'
              /\ m_stepper_delay st'
                 = (if (N =? 32767) || (N =? 32768) then 0 else N)
              /\ m_stepper_position st' = m_stepper_position st.
Proof.
  intros HN Hst.
  rewrite receive_s_line
    by (assumption ||
        (apply command_line_decimal; [discriminate | apply fits_decimal; lia])).
  eexists. split; [reflexivity |]. simpl.
  rewrite atoi_decimal_text, to_uint16_to_int16.
  rewrite (to_uint16_id N) by (unfold is_uint16; lia).
  split; reflexivity.
Qed.

Lemma speed_line_unsigned_range_witness :
  exists st', receive_line (letter_s :: decimal 40000) reset_state = Ok st'
              /\ m_stepper_delay st'
                 = (if (40000 =? 32767) || (40000 =? 32768) then 0 else 40000)
              /\ m_stepper_position st' = m_stepper_position reset_state.
Proof.
  apply (speed_line_unsigned_range 40000 reset_state).
  - lia.
  - exact line_start_reset.
Defined.

(** X6. A position line without a number is not ignored: when the remainder
    of a [p] line holds no number (an empty remainder, letters, a sign
    alone), the position is set to 0.  The delay is not touched. *)
Theorem position_line_without_number_sets_zero (body : list ascii) (st : state) :
  command_line (letter_p :: body) -> line_start st ->
  has_number body = false ->
  exists st', receive_line (letter_p :: body) st = Ok st'
              /\ m_stepper_position st' = 0
              /\ m_stepper_delay st' = m_stepper_delay st.
Proof.
  intros Hcmd Hst Hnone.
  rewrite receive_p_line by assumption.
  eexists. split; [reflexivity |]. simpl.
  now rewrite (atoi_no_number body Hnone).
Qed.

Lemma position_line_without_number_sets_zero_witness :
  exists st', receive_line (letter_p :: chars "x-") state_s5_p20 = Ok st'
              /\ m_stepper_position st' = 0
              /\ m_stepper_delay st' = m_stepper_delay state_s5_p20.
Proof.
  apply (position_line_without_number_sets_zero (chars "x-") state_s5_p20).
  - closed_command_line.
  - split; reflexivity.
  - reflexivity.
Defined.

(** X7. A line is handled without a fault exactly when it has at most 6
    bytes before its newline. *)
Theorem line_handled_iff_it_fits (line : list ascii) (st : state) :
  is_line line -> line_start st ->
  (exists st', receive_line line st = Ok st') <-> (length line <= 6)%nat.
Proof.
  intros Hline Hst. split.
  - intros [st' Hrun].
    destruct (Nat.le_gt_cases (length line) 6) as [Hle | Hgt]; [assumption |].
    destruct (long_line_faults line st Hline Hst) as [f Hf]; [lia |].
    rewrite Hf in Hrun. discriminate.
  - intros Hle.
    destruct (receive_line_effect line st) as (st' & Hrun & _);
      [split; [assumption | unfold fits, RX_CAPACITY; lia] | assumption |].
    now exists st'.
Qed.

Lemma line_handled_iff_it_fits_witness :
  (exists st', receive_line (chars "p12345") reset_state = Ok st')
  <-> (length (chars "p12345") <= 6)%nat.
Proof.
  apply (line_handled_iff_it_fits (chars "p12345") reset_state).
  - closed_line.
  - exact line_start_reset.
Defined.

(** * Further properties of the stepping engine *)

Section Motion.

Implicit Types (tr : trace) (seq : list Z) (st : state).

Lemma delay_calls_app tr1 tr2 :
  delay_calls (tr1 ++ tr2) = delay_calls tr1 + delay_calls tr2.
Proof.
  induction tr1 as [| [v |] tr1 IH]; simpl delay_calls; simpl app.
  - reflexivity.
  - change (delay_calls (Write_PORTC v :: tr1 ++ tr2))
      with (delay_calls (tr1 ++ tr2)).
    change (delay_calls (Write_PORTC v :: tr1)) with (delay_calls tr1).
    exact IH.
  - change (delay_calls (Delay_10us :: tr1 ++ tr2))
      with (1 + delay_calls (tr1 ++ tr2)).
    change (delay_calls (Delay_10us :: tr1)) with (1 + delay_calls tr1).
    lia.
Qed.

Lemma delay_calls_replicate n :
  delay_calls (replicate n Delay_10us) = Z.of_nat n.
Proof.
  induction n as [| n IH]; [reflexivity |].
  change (delay_calls (replicate (S n) Delay_10us))
    with (1 + delay_calls (replicate n Delay_10us)).
  lia.
Qed.

Lemma delay_calls_cycle seq delay :
  0 <= delay -> delay_calls (cycle seq delay) = Z.of_nat (length seq) * delay.
Proof.
  intros Hd. unfold cycle.
  induction seq as [| v seq IH]; [reflexivity |].
  change (flat_map (coil_step delay) (v :: seq))
    with (Write_PORTC v :: (hold delay ++ flat_map (coil_step delay) seq)).
  change (delay_calls (Write_PORTC v :: (hold delay ++ flat_map (coil_step delay) seq)))
    with (delay_calls (hold delay ++ flat_map (coil_step delay) seq)).
  rewrite delay_calls_app, IH. unfold hold. rewrite delay_calls_replicate.
  simpl length. lia.
Qed.

Lemma delay_calls_cycles seq delay n :
  0 <= delay -> 0 <= n ->
  delay_calls (cycles seq delay n) = n * (Z.of_nat (length seq) * delay).
Proof.
  intros Hd Hn. unfold cycles.
  rewrite <- (Z2Nat.id n) at 2 by assumption.
  induction (Z.to_nat n) as [| k IH]; [reflexivity |].
  change (concat (replicate (S k) (cycle seq delay)))
    with (cycle seq delay ++ concat (replicate k (cycle seq delay))).
  rewrite delay_calls_app, IH, delay_calls_cycle by assumption. lia.
Qed.

Lemma cycles_add seq delay n m :
  0 <= n -> 0 <= m ->
  cycles seq delay (n + m) = cycles seq delay n ++ cycles seq delay m.
Proof.
  intros Hn Hm. unfold cycles.
  rewrite Z2Nat.inj_add, replicate_add by assumption.
  apply concat_app.
Qed.

(** The coil patterns of a motion: |w| copies of the table of its
    direction. *)
Lemma coil_writes_motion delay w :
  coil_writes (motion delay w)
  = concat (replicate (Z.to_nat (Z.abs w)) (if w >? 0 then seq_cw else seq_ccw)).
Proof.
  unfold motion.
  destruct (Z.gtb_spec w 0).
  - rewrite coil_writes_cycles. do 2 f_equal. lia.
  - destruct (Z.ltb_spec w 0).
    + rewrite coil_writes_cycles. do 2 f_equal. lia.
    + replace w with 0 by lia. reflexivity.
Qed.

Lemma delay_calls_motion delay w :
  0 <= delay -> delay_calls (motion delay w) = 8 * Z.abs w * delay.
Proof.
  intros Hd. unfold motion.
  destruct (Z.gtb_spec w 0).
  - rewrite delay_calls_cycles by lia. change (length seq_cw) with 8%nat. lia.
  - destruct (Z.ltb_spec w 0).
    + rewrite delay_calls_cycles by lia. change (length seq_ccw) with 8%nat. lia.
    + replace w with 0 by lia. reflexivity.
Qed.

Lemma concat_replicate_comm {A : Type} (l : list A) n :
  concat (replicate n l) ++ l = l ++ concat (replicate n l).
Proof.
  induction n as [| n IH]; simpl.
  - now rewrite app_nil_r.
  - now rewrite <- app_assoc, IH.
Qed.

Lemma rev_concat_replicate {A : Type} (l : list A) n :
  rev (concat (replicate n l)) = concat (replicate n (rev l)).
Proof.
  induction n as [| n IH]; simpl; [reflexivity |].
  now rewrite rev_app_distr, IH, concat_replicate_comm.
Qed.

Lemma Forall_concat_replicate {A : Type} (P : A -> Prop) (l : list A) n :
  Forall P l -> Forall P (concat (replicate n l)).
Proof.
  intros Hl. induction n as [| n IH]; simpl.
  - constructor.
  - apply Forall_app. now split.
Qed.

(** Several passes of the loop of [main]. *)
Lemma main_iterations_motions fuel snapshots : forall P0 tr,
  Forall (fun st => is_uint16 (m_stepper_delay st)) snapshots ->
  enough_fuel fuel ->
  main_iterations fuel snapshots P0 tr
  = Some (final_position (map snapshot_position snapshots) P0,
          tr ++ motions snapshots P0).
Proof.
  induction snapshots as [| st snapshots IH]; intros P0 tr Hd Hfuel; simpl.
  - now rewrite app_nil_r.
  - inversion Hd as [| ? ? Hst Hrest]; subst.
    rewrite main_iteration_motion by assumption. simpl.
    rewrite IH by assumption. now rewrite <- app_assoc.
Qed.

Lemma deltas_telescope positions : forall P0,
  (sum_list_Z (deltas positions P0) - (final_position positions P0 - P0))
    mod 65536 = 0.
Proof.
  induction positions as [| p positions IH]; intros P0; simpl.
  - now rewrite Z.sub_diag.
  - fold (final_position positions p).
    replace (position_delta p P0 + sum_list_Z (deltas positions p)
             - (final_position positions p - P0))
      with ((position_delta p P0 - (p - P0))
            + (sum_list_Z (deltas positions p) - (final_position positions p - p)))
      by lia.
    rewrite Z.add_mod, IH, position_delta_congruent by lia. reflexivity.
Qed.

Lemma deltas_exact positions : forall P0,
  steps_in_range positions P0 ->
  sum_list_Z (deltas positions P0) = final_position positions P0 - P0.
Proof.
  induction positions as [| p positions IH]; intros P0 H; simpl.
  - lia.
  - destruct H as [Hp Hrest]. fold (final_position positions p).
    rewrite (IH p Hrest), position_delta_exact by assumption. lia.
Qed.

End Motion.

(** X8. Once a pass has caught up with the position, the next pass with
    the shared variables unchanged drives nothing and keeps the previous
    position, whatever the delay. *)
Theorem caught_up_pass_is_idle
    (fuel : nat) (st : state) (P0 p : Z) (tr tr' : trace) :
  main_iteration fuel st P0 tr = Some (p, tr') ->
  main_iteration fuel st p tr' = Some (p, tr').
Proof.
  unfold main_iteration. cbv zeta.
  destruct (if _ >? 0 then _ else _) as [tr1 |]; simpl; [| discriminate].
  intros [= <- <-].
  rewrite Z.sub_diag. reflexivity.
Qed.

Lemma caught_up_pass_is_idle_witness :
  main_iteration 9 state_s5_p20 20 (cycles seq_cw 5 1)
  = Some (20, cycles seq_cw 5 1).
Proof.
  apply (caught_up_pass_is_idle 9 state_s5_p20 19 20 [] (cycles seq_cw 5 1)).
  reflexivity.
Defined.

(** X9. [stepper_rotate] on a sequence of 8 patterns, for any delay and any
    count up to 65535: it returns, having written the sequence exactly
    [dif_position] times in order (8 writes each) and having called the
    delay primitive [8 * dif_position * delay] times; with a count of 0 it
    does nothing. *)
Theorem stepper_rotate_contract
    (fuel : nat) (seq : list Z) (delay n : Z) (tr : trace) :
  length seq = 8%nat -> is_uint16 delay -> is_uint16 n -> enough_fuel fuel ->
  exists tr',
    stepper_rotate fuel seq delay n tr = Some (tr ++ tr')
    /\ coil_writes tr' = concat (replicate (Z.to_nat n) seq)
    /\ Z.of_nat (length (coil_writes tr')) = 8 * n
    /\ delay_calls tr' = 8 * n * delay
    /\ (n = 0 -> tr' = []).
Proof.
  intros Hseq Hd Hn Hfuel.
  rewrite stepper_rotate_cycles by assumption.
  unfold is_uint16 in Hd, Hn.
  eexists. split; [reflexivity |].
  split; [apply coil_writes_cycles |].
  split; [apply count_coil_writes_cycles; [assumption | lia] |].
  split.
  - rewrite delay_calls_cycles, Hseq by lia. lia.
  - intros ->. reflexivity.
Qed.

Lemma stepper_rotate_contract_witness :
  exists tr',
    stepper_rotate (Z.to_nat 65536) seq_ccw 3 2 [] = Some ([] ++ tr')
    /\ coil_writes tr' = concat (replicate (Z.to_nat 2) seq_ccw)
    /\ Z.of_nat (length (coil_writes tr')) = 8 * 2
    /\ delay_calls tr' = 8 * 2 * 3
    /\ (2 = 0 -> tr' = []).
Proof.
  apply (stepper_rotate_contract (Z.to_nat 65536) seq_ccw 3 2 []).
  - reflexivity.
  - unfold is_uint16. lia.
  - unfold is_uint16. lia.
  - unfold enough_fuel. lia.
Defined.

(** X10. Two calls of [stepper_rotate] one after the other, with counts n
    and m whose sum is at most 65535, leave the same trace as one call with
    the count n + m. *)
Theorem stepper_rotate_composes
    (fuel : nat) (seq : list Z) (delay n m : Z) (tr : trace) :
  length seq = 8%nat -> is_uint16 delay ->
  0 <= n -> 0 <= m -> n + m <= 65535 -> enough_fuel fuel ->
  (stepper_rotate fuel seq delay n tr ≫= stepper_rotate fuel seq delay m)
  = stepper_rotate fuel seq delay (n + m) tr.
Proof.
  intros Hseq Hd Hn Hm Hsum Hfuel.
  rewrite !stepper_rotate_cycles by (assumption || (unfold is_uint16; lia)).
  simpl.
  rewrite stepper_rotate_cycles by (assumption || (unfold is_uint16; lia)).
  now rewrite cycles_add, app_assoc.
Qed.

Lemma stepper_rotate_composes_witness :
  (stepper_rotate (Z.to_nat 65536) seq_cw 2 1 []
     ≫= stepper_rotate (Z.to_nat 65536) seq_cw 2 3)
  = stepper_rotate (Z.to_nat 65536) seq_cw 2 (1 + 3) [].
Proof.
  apply (stepper_rotate_composes (Z.to_nat 65536) seq_cw 2 1 3 []).
  - reflexivity.
  - unfold is_uint16. lia.
  - lia.
  - lia.
  - lia.
  - unfold enough_fuel. lia.
Defined.

(** X11. How long a pass takes: with position difference w (as wrapped by
    the engine) and delay D, the pass makes [8 * |w|] coil writes and
    [8 * |w| * D] calls of the 10 us delay primitive. *)
Theorem pass_write_and_delay_counts
    (fuel : nat) (st : state) (P0 : Z) (tr : trace) :
  is_uint16 (m_stepper_delay st) -> enough_fuel fuel ->
  exists tr',
    main_iteration fuel st P0 tr = Some (snapshot_position st, tr ++ tr')
    /\ Z.of_nat (length (coil_writes tr'))
       = 8 * Z.abs (position_delta (snapshot_position st) P0)
    /\ delay_calls tr'
       = 8 * Z.abs (position_delta (snapshot_position st) P0)
         * m_stepper_delay st.
Proof.
  intros Hd Hfuel.
  rewrite main_iteration_motion by assumption.
  eexists. split; [reflexivity |]. split.
  - rewrite coil_writes_motion, length_concat_replicate.
    destruct (_ >? 0); [change (length seq_cw) with 8%nat
                       | change (length seq_ccw) with 8%nat]; lia.
  - apply delay_calls_motion. unfold is_uint16 in Hd. lia.
Qed.

Lemma pass_write_and_delay_counts_witness :
  exists tr',
    main_iteration (Z.to_nat 65536) state_s5_p20 23 []
    = Some (snapshot_position state_s5_p20, [] ++ tr')
    /\ Z.of_nat (length (coil_writes tr'))
       = 8 * Z.abs (position_delta (snapshot_position state_s5_p20) 23)
    /\ delay_calls tr'
       = 8 * Z.abs (position_delta (snapshot_position state_s5_p20) 23)
         * m_stepper_delay state_s5_p20.
Proof.
  apply (pass_write_and_delay_counts (Z.to_nat 65536) state_s5_p20 23 []).
  - unfold is_uint16. simpl. lia.
  - unfold enough_fuel. lia.
Defined.

(** X12. The engine drives only the pins [main] has made outputs, and never
    releases all coils: over any number of passes, every pattern written to
    PORTC lies within the mask [DDRC = 0x0F] and is not 0. *)
Theorem patterns_stay_within_output_pins
    (fuel : nat) (snapshots : list state) (P0 : Z) (tr : trace) :
  Forall (fun st => is_uint16 (m_stepper_delay st)) snapshots ->
  enough_fuel fuel ->
  exists tr',
    main_iterations fuel snapshots P0 tr
    = Some (final_position (map snapshot_position snapshots) P0, tr ++ tr')
    /\ Forall (fun v => Z.land v DDRC = v /\ v <> 0) (coil_writes tr').
Proof.
  intros Hd Hfuel.
  rewrite main_iterations_motions by assumption.
  eexists. split; [reflexivity |].
  clear Hd. revert P0.
  induction snapshots as [| st snapshots IH]; intros P0; simpl.
  - constructor.
  - rewrite coil_writes_app. apply Forall_app. split; [| apply IH].
    rewrite coil_writes_motion. apply Forall_concat_replicate.
    destruct (_ >? 0); repeat constructor; discriminate.
Qed.

Lemma patterns_stay_within_output_pins_witness :
  exists tr',
    main_iterations (Z.to_nat 65536) [state_s5_p20; state_p32767] 0 []
    = Some (final_position
              (map snapshot_position [state_s5_p20; state_p32767]) 0,
            [] ++ tr')
    /\ Forall (fun v => Z.land v DDRC = v /\ v <> 0) (coil_writes tr').
Proof.
  apply (patterns_stay_within_output_pins
           (Z.to_nat 65536) [state_s5_p20; state_p32767] 0 []).
  - repeat constructor; unfold is_uint16; simpl; lia.
  - unfold enough_fuel. lia.
Defined.

(** X13. The way back retraces the way out: when a pass moves from P0 to P1
    and a later pass moves from P1 back to P0, both differences being
    representable, the coil patterns of the second are those of the first
    in reverse order (the delays of the two passes may differ). *)
Theorem return_pass_retraces_in_reverse
    (fuel : nat) (st0 st1 : state) (tr : trace) :
  is_uint16 (m_stepper_delay st0) -> is_uint16 (m_stepper_delay st1) ->
  is_int16 (snapshot_position st1 - snapshot_position st0) ->
  is_int16 (snapshot_position st0 - snapshot_position st1) ->
  enough_fuel fuel ->
  exists out back,
    main_iteration fuel st1 (snapshot_position st0) tr
    = Some (snapshot_position st1, tr ++ out)
    /\ main_iteration fuel st0 (snapshot_position st1) (tr ++ out)
       = Some (snapshot_position st0, (tr ++ out) ++ back)
    /\ coil_writes back = rev (coil_writes out).
Proof.
  intros Hd0 Hd1 Hout Hback Hfuel.
  exists (motion (m_stepper_delay st1)
            (snapshot_position st1 - snapshot_position st0)),
         (motion (m_stepper_delay st0)
            (snapshot_position st0 - snapshot_position st1)).
  rewrite !main_iteration_motion by assumption.
  rewrite !position_delta_exact by assumption.
  split; [reflexivity |]. split; [reflexivity |].
  rewrite !coil_writes_motion, rev_concat_replicate.
  set (w := snapshot_position st1 - snapshot_position st0).
  replace (snapshot_position st0 - snapshot_position st1) with (- w)
    by (unfold w; lia).
  rewrite Z.abs_opp.
  destruct (Z.gtb_spec w 0), (Z.gtb_spec (- w) 0); try lia; try reflexivity.
  replace w with 0 by lia. reflexivity.
Qed.

Lemma return_pass_retraces_in_reverse_witness :
  exists out back,
    main_iteration (Z.to_nat 65536) state_p32767 (snapshot_position state_s5_p20) []
    = Some (snapshot_position state_p32767, [] ++ out)
    /\ main_iteration (Z.to_nat 65536) state_s5_p20
         (snapshot_position state_p32767) ([] ++ out)
       = Some (snapshot_position state_s5_p20, ([] ++ out) ++ back)
    /\ coil_writes back = rev (coil_writes out).
Proof.
  apply (return_pass_retraces_in_reverse
           (Z.to_nat 65536) state_s5_p20 state_p32767 []).
  - unfold is_uint16. simpl. lia.
  - unfold is_uint16. simpl. lia.
  - unfold is_int16. vm_compute. split; discriminate.
  - unfold is_int16. vm_compute. split; discriminate.
  - unfold enough_fuel. lia.
Defined.

(** X14. Over any number of passes of [main], started with the previous
    position 0 and no output: the loop ends each pass with the position just
    read, its trace is the motions of the passes in order, and the position
    differences it has acted on add up to the last position modulo 2^16,
    exactly so when every step is representable in 16 signed bits. *)
Theorem main_loop_tracks_position
    (io : avr_io) (fuel : nat) (snapshots : list state) :
  Forall (fun st => is_uint16 (m_stepper_delay st)) snapshots ->
  enough_fuel fuel ->
  (main io fuel snapshots).2
  = Some (final_position (map snapshot_position snapshots) 0,
          motions snapshots 0)
  /\ (sum_list_Z (deltas (map snapshot_position snapshots) 0)
      - final_position (map snapshot_position snapshots) 0) mod 65536 = 0
  /\ (steps_in_range (map snapshot_position snapshots) 0 ->
      sum_list_Z (deltas (map snapshot_position snapshots) 0)
      = final_position (map snapshot_position snapshots) 0).
Proof.
  intros Hd Hfuel. unfold main. simpl.
  rewrite main_iterations_motions by assumption. simpl.
  split; [reflexivity |]. split.
  - pose proof (deltas_telescope (map snapshot_position snapshots) 0) as H.
    now rewrite Z.sub_0_r in H.
  - intros H. rewrite deltas_exact by assumption. lia.
Qed.

Lemma main_loop_tracks_position_witness :
  (main (mkIo 8000000 7 4 3 7 1 2) (Z.to_nat 65536)
     [state_s5_p20; state_p32767; state_s5_p20]).2
  = Some (final_position
            (map snapshot_position [state_s5_p20; state_p32767; state_s5_p20]) 0,
          motions [state_s5_p20; state_p32767; state_s5_p20] 0)
  /\ (sum_list_Z
        (deltas (map snapshot_position [state_s5_p20; state_p32767; state_s5_p20]) 0)
      - final_position
          (map snapshot_position [state_s5_p20; state_p32767; state_s5_p20]) 0)
     mod 65536 = 0
  /\ (steps_in_range
        (map snapshot_position [state_s5_p20; state_p32767; state_s5_p20]) 0 ->
      sum_list_Z
        (deltas (map snapshot_position [state_s5_p20; state_p32767; state_s5_p20]) 0)
      = final_position
          (map snapshot_position [state_s5_p20; state_p32767; state_s5_p20]) 0).
Proof.
  apply (main_loop_tracks_position (mkIo 8000000 7 4 3 7 1 2) (Z.to_nat 65536)
           [state_s5_p20; state_p32767; state_s5_p20]).
  - repeat constructor; unfold is_uint16; simpl; lia.
  - unfold enough_fuel. lia.
Defined.

(** * The interpreter and the engine together *)

(** X15. A position command and the pass that follows it: after the line
    [p<N>], with N in the signed 16-bit range, a pass that starts from the
    previous position P0, with N - P0 representable, drives the motion of
    N - P0 at the delay in force and ends with the previous position N. *)
Theorem position_command_then_pass
    (fuel : nat) (N P0 : Z) (st : state) (tr : trace) :
  fits (letter_p :: decimal N) -> line_start st ->
  is_int16 N -> is_int16 (N - P0) ->
  is_uint16 (m_stepper_delay st) -> enough_fuel fuel ->
  exists st',
    receive_line (letter_p :: decimal N) st = Ok st'
    /\ main_iteration fuel st' P0 tr
       = Some (N, tr ++ motion (m_stepper_delay st) (N - P0)).
Proof.
  intros Hfit Hst HN Hdiff Hd Hfuel.
  rewrite receive_p_line
    by (assumption || (apply command_line_decimal; [discriminate | assumption])).
  eexists. split; [reflexivity |].
  rewrite main_iteration_motion by assumption.
  unfold snapshot_position. simpl.
  rewrite atoi_decimal_text, to_int16_to_uint16.
  rewrite !(to_int16_id N) by assumption.
  now rewrite position_delta_exact.
Qed.

Lemma position_command_then_pass_witness :
  exists st',
    receive_line (letter_p :: decimal (-15)) state_s5_p20 = Ok st'
    /\ main_iteration (Z.to_nat 65536) st' 20 []
       = Some (-15, [] ++ motion (m_stepper_delay state_s5_p20) (-15 - 20)).
Proof.
  apply (position_command_then_pass (Z.to_nat 65536) (-15) 20 state_s5_p20 []).
  - unfold fits, RX_CAPACITY. simpl. lia.
  - split; reflexivity.
  - unfold is_int16. lia.
  - unfold is_int16. lia.
  - unfold is_uint16. simpl. lia.
  - unfold enough_fuel. lia.
Defined.

(** X16. A speed command alone moves nothing: when the engine has caught up
    with the position, the pass after any [s] line drives nothing and keeps
    the previous position, whatever the new delay. *)
Theorem speed_command_causes_no_motion
    (fuel : nat) (body : list ascii) (st : state) (tr : trace) :
  command_line (letter_s :: body) -> line_start st ->
  exists st',
    receive_line (letter_s :: body) st = Ok st'
    /\ main_iteration fuel st' (snapshot_position st) tr
       = Some (snapshot_position st, tr).
Proof.
  intros Hcmd Hst.
  rewrite receive_s_line by assumption.
  eexists. split; [reflexivity |].
  unfold main_iteration, snapshot_position. simpl.
  rewrite Z.sub_diag. reflexivity.
Qed.

Lemma speed_command_causes_no_motion_witness :
  exists st',
    receive_line (letter_s :: chars "900") state_s5_p20 = Ok st'
    /\ main_iteration 0 st' (snapshot_position state_s5_p20) []
       = Some (snapshot_position state_s5_p20, []).
Proof.
  apply (speed_command_causes_no_motion 0 (chars "900") state_s5_p20 []).
  - closed_command_line.
  - split; reflexivity.
Defined.

(** * The serial set-up *)

Section Usart.

Lemma testbit_bit n i :
  0 <= n -> 0 <= i -> Z.testbit (bit n) i = (i =? n).
Proof.
  intros Hn Hi. unfold bit. rewrite Z.shiftl_spec by assumption.
  destruct (Z.eqb_spec i n) as [-> | Hne].
  - now rewrite Z.sub_diag.
  - destruct (i - n) as [| q | q] eqn:E; [lia | | reflexivity].
    simpl. now destruct q.
Qed.

Lemma testbit_three_bits a b c i :
  0 <= a < 8 -> 0 <= b < 8 -> 0 <= c < 8 -> 0 <= i ->
  Z.testbit (to_uint8 (Z.lor (Z.lor (bit a) (bit b)) (bit c))) i
  = (i =? a) || (i =? b) || (i =? c).
Proof.
  intros Ha Hb Hc Hi. unfold to_uint8. change 256 with (2 ^ 8).
  destruct (Z_lt_le_dec i 8) as [Hlt | Hge].
  - rewrite Z.mod_pow2_bits_low by lia.
    now rewrite !Z.lor_spec, !testbit_bit by lia.
  - rewrite Z.mod_pow2_bits_high by lia.
    destruct (Z.eqb_spec i a); [lia |].
    destruct (Z.eqb_spec i b); [lia |].
    destruct (Z.eqb_spec i c); [lia | reflexivity].
Qed.

End Usart.

(** X17. The baud-rate divisor: for a clock of at least 76800 Hz that fits
    an [unsigned long], the register pair UBRRH:UBRRL holds
    [F_CPU / (16 * 4800) - 1], each half within 8 bits, so that the divisor
    plus one is the largest whole number of 76800s in the clock: the rate
    [F_CPU / (16 * (UBRR + 1))] is never below 4800 baud. *)
Theorem init_USART_baud_divisor (io : avr_io) :
  76800 <= F_CPU io < 4294967296 ->
  UBRR (init_USART io) = F_CPU io / 76800 - 1
  /\ 0 <= UBRRH (init_USART io) < 256
  /\ 0 <= UBRRL (init_USART io) < 256
  /\ 16 * BAUD_RATE * (UBRR (init_USART io) + 1) <= F_CPU io
  /\ F_CPU io < 16 * BAUD_RATE * (UBRR (init_USART io) + 2).
Proof.
  intros HF.
  assert (Hq : 1 <= F_CPU io / 76800 < 55925).
  { split.
    - apply Z.div_le_lower_bound; lia.
    - apply Z.div_lt_upper_bound; lia. }
  assert (Hpre : BAUD_PRESCALE io = F_CPU io / 76800 - 1).
  { unfold BAUD_PRESCALE, BAUD_RATE, to_uint32.
    change (4800 * 16 mod 4294967296) with 76800.
    rewrite (Z.mod_small (F_CPU io)) by lia.
    apply Z.mod_small. lia. }
  assert (Hubrr : UBRR (init_USART io) = F_CPU io / 76800 - 1).
  { unfold UBRR, init_USART. simpl. rewrite Hpre.
    rewrite Z.shiftr_div_pow2 by lia. change (2 ^ 8) with 256.
    unfold to_uint8.
    rewrite (Z.mod_small ((F_CPU io / 76800 - 1) / 256)).
    - pose proof (Z.div_mod (F_CPU io / 76800 - 1) 256). lia.
    - split; [apply Z.div_pos; lia | apply Z.div_lt_upper_bound; lia]. }
  split; [exact Hubrr |].
  split; [unfold init_USART, to_uint8; simpl; apply Z.mod_pos_bound; lia |].
  split; [unfold init_USART, to_uint8; simpl; apply Z.mod_pos_bound; lia |].
  rewrite Hubrr. unfold BAUD_RATE.
  pose proof (Z.div_mod (F_CPU io) 76800).
  pose proof (Z.mod_pos_bound (F_CPU io) 76800). lia.
Qed.

Lemma init_USART_baud_divisor_witness :
  UBRR (init_USART (mkIo 8000000 7 4 3 7 1 2)) = 8000000 / 76800 - 1
  /\ 0 <= UBRRH (init_USART (mkIo 8000000 7 4 3 7 1 2)) < 256
  /\ 0 <= UBRRL (init_USART (mkIo 8000000 7 4 3 7 1 2)) < 256
  /\ 16 * BAUD_RATE * (UBRR (init_USART (mkIo 8000000 7 4 3 7 1 2)) + 1)
     <= 8000000
  /\ 8000000
     < 16 * BAUD_RATE * (UBRR (init_USART (mkIo 8000000 7 4 3 7 1 2)) + 2).
Proof.
  apply (init_USART_baud_divisor (mkIo 8000000 7 4 3 7 1 2)).
  simpl. lia.
Defined.

(** X18. The control registers: with bit numbers inside an 8-bit register,
    UCSRB has the receive-interrupt, receiver and transmitter enable bits
    set and no other, and UCSRC has the register-select bit and the two
    character-size bits set and no other. *)
Theorem init_USART_control_bits (io : avr_io) (i : Z) :
  0 <= RXCIE io < 8 -> 0 <= RXEN io < 8 -> 0 <= TXEN io < 8 ->
  0 <= URSEL io < 8 -> 0 <= UCSZ0 io < 8 -> 0 <= UCSZ1 io < 8 ->
  0 <= i ->
  Z.testbit (UCSRB (init_USART io)) i
  = (i =? RXCIE io) || (i =? RXEN io) || (i =? TXEN io)
  /\ Z.testbit (UCSRC (init_USART io)) i
     = (i =? URSEL io) || (i =? UCSZ0 io) || (i =? UCSZ1 io).
Proof.
  intros. unfold init_USART. simpl.
  split; now apply testbit_three_bits.
Qed.

Lemma init_USART_control_bits_witness :
  Z.testbit (UCSRB (init_USART (mkIo 8000000 7 4 3 7 1 2))) 7
  = (7 =? 7) || (7 =? 4) || (7 =? 3)
  /\ Z.testbit (UCSRC (init_USART (mkIo 8000000 7 4 3 7 1 2))) 7
     = (7 =? 7) || (7 =? 1) || (7 =? 2).
Proof.
  apply (init_USART_control_bits (mkIo 8000000 7 4 3 7 1 2) 7); simpl; lia.
Defined.
